(** * session-timeout: the duration calculator and the timeout controller

    A shallow embedding of [public/session-timeout.js]: the pure function
    [getDurationData] and the methods of the [SessionTimeout] custom element
    that drive rescheduling, expiry detection and keepalive signalling.

    Numbers.  Time stamps are the integer milliseconds of [Date.now()], so
    they are modelled as [Z]; a JavaScript number that may be [NaN] (the
    time value of a [Date]) is a [jsnum].  The two divisions of the source
    are real divisions followed by [Math.floor]; they are kept as such, on
    exact rationals ([Q]).  The remainder operator [%] truncates towards
    zero: [Z.rem].

    Effects.  The methods run in a monad over a [World]: the element's
    fields, the readings of the clock, the events dispatched, the console,
    the pending timers and the listeners registered on [window].  An
    exception keeps the state reached when it was thrown.

    Left out: the construction of the DOM nodes and the [console.log]
    tracing of a tick.  Numbers handed to the setters and to
    [sanitiseDuation] are integers or [NaN]; the attributes of the element
    are a parameter of [connectedCallback]. *)

From Stdlib Require Import ZArith QArith Qround List String Ascii Bool Lia.
From Stdlib Require Import DecimalString DecimalPos.
Import ListNotations.

Local Open Scope string_scope.
Local Open Scope list_scope.
Local Open Scope Z_scope.

(** ** JavaScript numbers *)

Inductive jsnum : Type :=
| Num (z : Z)
| NaN.

(** [a / b] on two integers, as the exact quotient. *)
Definition js_div (a b : Z) : Q := (inject_Z a / inject_Z b)%Q.

(** [Math.floor] *)
Definition Math_floor (q : Q) : Z := Qfloor q.

(** The text of an integer in a template literal: [`${n}`]. *)
Definition Z_to_string (n : Z) : string := NilZero.string_of_int (Z.to_int n).

(** ** The duration calculator *)

(** The object returned by [getDurationData]. *)
Record DurationData : Type := mkDurationData {
  dynamicDuration : string;
  diff : Z;
  endWord : string;
  invalid : bool;
  isPast : bool;
  prefixTxt : string;
  startWord : string;
  timeout : Z
}.

(** A list of the number of seconds per time unit. *)
Definition multipliers : list Z := [31557600; 2629800; 604800; 86400; 3600; 60].

(** List of time unit names. *)
Definition units : list string :=
  ["year"; "month"; "week"; "day"; "hour"; "minute"].

(** The variables the unit loop assigns: [extra], [next], [humanVal] (still a
    quotient, floored after the loop) and [unit]. *)
Record LoopVars : Type := mkLoopVars {
  lv_extra : Z;
  lv_next : Z;
  lv_humanVal : Q;
  lv_unit : string
}.

(** [for (let a = 0; a < units.length; a += 1) { if (_diff > multipliers[a])
    { ...; break; } }], from index [a] with [fuel] iterations left. *)
Fixpoint unitLoop (fuel a : nat) (_diff : Z) (_isPast : bool) (v : LoopVars)
  : LoopVars :=
  match fuel with
  | O => v
  | S fuel' =>
      if (a <? List.length units)%nat then
        let m := nth a multipliers 0 in
        if _diff >? m then
          let extra' := Z.rem _diff m in
          {| lv_extra := extra';
             lv_next := if (extra' >? 0) && negb _isPast then extra' else m;
             lv_humanVal := js_div _diff m;
             lv_unit := nth a units "" |}
        else unitLoop fuel' (S a) _diff _isPast v
      else v
  end.

(** [Math.floor((when - now) / 1000)], the signed number of seconds. *)
Definition signedDiff (now when_ : Z) : Z :=
  Math_floor (js_div (when_ - now) 1000).

(** The loop run from its initial assignments [next = 1], [humanVal = _diff],
    [unit = 'second'], [extra = 0]. *)
Definition bestUnit (_diff : Z) (_isPast : bool) : LoopVars :=
  unitLoop (List.length units) 0 _diff _isPast
    {| lv_extra := 0; lv_next := 1;
       lv_humanVal := inject_Z _diff; lv_unit := "second" |}.

(** The seconds to the next recomputation, after the correction that
    follows the loop. *)
Definition rescheduleSeconds (_diff : Z) (_isPast : bool) : Z :=
  let v := bestUnit _diff _isPast in
  if negb _isPast && negb (_diff =? 0) && (Z.rem (lv_next v) 60 =? 0)
  then 1 else lv_next v.

(** The [match] on [when] is the test [Number.isNaN(when)]. *)
Definition getDurationData (now : Z) (when : jsnum)
  (before after start end_ : string) : DurationData :=
  match when with
  | NaN =>
      {| dynamicDuration := "unknown";
         diff := 0;
         endWord := "";
         invalid := true;
         isPast := false;
         prefixTxt := "";
         startWord := before;
         timeout := 0 |}
  | Num when_ =>
      let _diff0 := signedDiff now when_ in
      let _isPast := _diff0 <? 0 in
      let _diff := if _isPast then _diff0 * -1 else _diff0 in
      let _endWord := if _isPast then (" " ++ end_)%string else "" in
      let prefixTxt' := if _isPast then after else before in
      let _startWord := if _isPast then "" else (" " ++ start)%string in
      let v := bestUnit _diff _isPast in
      let humanVal' := Math_floor (lv_humanVal v) in
      let next' := rescheduleSeconds _diff _isPast in
      {| dynamicDuration :=
           if _diff =? 0 then "now"
           else (Z_to_string humanVal' ++ " " ++ lv_unit v
                   ++ (if negb (humanVal' =? 1)%Z then "s" else ""))%string;
         diff := _diff;
         endWord := _endWord;
         invalid := false;
         isPast := _isPast;
         prefixTxt := prefixTxt';
         startWord := if _diff =? 0 then "" else _startWord;
         timeout := next' * 1000 |}
  end.

(** ** Values, events and the element *)

(** A [Date] object is its time value ([NaN] for an invalid date). *)
Record Date : Type := mkDate { valueOf : jsnum }.

(** How a call completes. *)
Inductive Completion : Type :=
| Normal
| Throws (message : string).

(** A host function taking no arguments, such as a keepalive handler: what a
    call of it does to the element is nothing, it only completes. *)
Record jsfun : Type := mkFun { fun_call : Completion }.

(** The values that reach the setters and [setEnd]. *)
Inductive jsval : Type :=
| JUndefined
| JNull
| JString (s : string)
| JNumber (n : jsnum)
| JFunction (f : jsfun).

Definition typeof (v : jsval) : string :=
  match v with
  | JUndefined => "undefined"
  | JNull => "object"
  | JString _ => "string"
  | JNumber _ => "number"
  | JFunction _ => "function"
  end.

(** [new CustomEvent(event, { bubbles: true, composed: true, detail })] *)
Record CustomEvent : Type := mkCustomEvent {
  ev_type : string;
  bubbles : bool;
  composed : bool;
  detail : bool
}.

Inductive LogLevel : Type := Warn | Error.

(** The methods the element hands to [window.addEventListener]. *)
Inductive Listener : Type :=
| L_setSessionEnd
| L_resetEnd.

(** The fields of a [SessionTimeout] element that the engine reads or
    writes.  [this_diff] is created by the first tick; the two spans are
    represented by their [innerText]. *)
Record SessionTimeout : Type := mkSessionTimeout {
  this_after : string;
  this_before : string;
  this_end : string;
  this_start : string;
  this_isPast : bool;
  this_diff : option Z;
  _duration : Z;
  _end : option Date;
  _timeout : option nat;
  _lastInteraction : Z;
  _lastKeep : Z;
  _keepalive : Z;
  _keepaliveCallback : option jsfun;
  _msgSpan : string;
  _valueSpan : string
}.

(** The element as the constructor leaves it. *)
Definition constructed : SessionTimeout :=
  {| this_after := "expired"; this_before := "expires"; this_end := "ago";
     this_start := "in"; this_isPast := false; this_diff := None;
     _duration := 0; _end := None; _timeout := None;
     _lastInteraction := 0; _lastKeep := 0; _keepalive := 0;
     _keepaliveCallback := None; _msgSpan := ""; _valueSpan := "" |}.

(** The element together with its host: the successive readings of the
    clock, the events dispatched so far (oldest first), the console, the
    pending timers (handle and delay; their callback is always a tick), the
    listeners registered on [window], and the number of times the body of a
    custom keepalive handler has run. *)
Record World : Type := mkWorld {
  clock : nat -> Z;
  reads : nat;
  this : SessionTimeout;
  dispatched : list CustomEvent;
  console : list (LogLevel * string);
  timers : list (nat * Z);
  nextTimer : nat;
  windowListeners : list (string * Listener);
  callbackCalls : nat
}.

Definition with_this (f : SessionTimeout -> SessionTimeout) (w : World) : World :=
  {| clock := clock w; reads := reads w; this := f (this w);
     dispatched := dispatched w; console := console w; timers := timers w;
     nextTimer := nextTimer w; windowListeners := windowListeners w;
     callbackCalls := callbackCalls w |}.

Definition set_isPast_diff (p : bool) (d : Z) (e : SessionTimeout) : SessionTimeout :=
  {| this_after := this_after e; this_before := this_before e;
     this_end := this_end e; this_start := this_start e;
     this_isPast := p; this_diff := Some d;
     _duration := _duration e; _end := _end e; _timeout := _timeout e;
     _lastInteraction := _lastInteraction e; _lastKeep := _lastKeep e;
     _keepalive := _keepalive e; _keepaliveCallback := _keepaliveCallback e;
     _msgSpan := _msgSpan e; _valueSpan := _valueSpan e |}.

Definition set_spans (m v : string) (e : SessionTimeout) : SessionTimeout :=
  {| this_after := this_after e; this_before := this_before e;
     this_end := this_end e; this_start := this_start e;
     this_isPast := this_isPast e; this_diff := this_diff e;
     _duration := _duration e; _end := _end e; _timeout := _timeout e;
     _lastInteraction := _lastInteraction e; _lastKeep := _lastKeep e;
     _keepalive := _keepalive e; _keepaliveCallback := _keepaliveCallback e;
     _msgSpan := m; _valueSpan := v |}.

Definition set_end (d : Date) (e : SessionTimeout) : SessionTimeout :=
  {| this_after := this_after e; this_before := this_before e;
     this_end := this_end e; this_start := this_start e;
     this_isPast := this_isPast e; this_diff := this_diff e;
     _duration := _duration e; _end := Some d; _timeout := _timeout e;
     _lastInteraction := _lastInteraction e; _lastKeep := _lastKeep e;
     _keepalive := _keepalive e; _keepaliveCallback := _keepaliveCallback e;
     _msgSpan := _msgSpan e; _valueSpan := _valueSpan e |}.

Definition set_timeout (h : nat) (e : SessionTimeout) : SessionTimeout :=
  {| this_after := this_after e; this_before := this_before e;
     this_end := this_end e; this_start := this_start e;
     this_isPast := this_isPast e; this_diff := this_diff e;
     _duration := _duration e; _end := _end e; _timeout := Some h;
     _lastInteraction := _lastInteraction e; _lastKeep := _lastKeep e;
     _keepalive := _keepalive e; _keepaliveCallback := _keepaliveCallback e;
     _msgSpan := _msgSpan e; _valueSpan := _valueSpan e |}.

Definition set_lastInteraction (t : Z) (e : SessionTimeout) : SessionTimeout :=
  {| this_after := this_after e; this_before := this_before e;
     this_end := this_end e; this_start := this_start e;
     this_isPast := this_isPast e; this_diff := this_diff e;
     _duration := _duration e; _end := _end e; _timeout := _timeout e;
     _lastInteraction := t; _lastKeep := _lastKeep e;
     _keepalive := _keepalive e; _keepaliveCallback := _keepaliveCallback e;
     _msgSpan := _msgSpan e; _valueSpan := _valueSpan e |}.

Definition set_lastKeep (t : Z) (e : SessionTimeout) : SessionTimeout :=
  {| this_after := this_after e; this_before := this_before e;
     this_end := this_end e; this_start := this_start e;
     this_isPast := this_isPast e; this_diff := this_diff e;
     _duration := _duration e; _end := _end e; _timeout := _timeout e;
     _lastInteraction := _lastInteraction e; _lastKeep := t;
     _keepalive := _keepalive e; _keepaliveCallback := _keepaliveCallback e;
     _msgSpan := _msgSpan e; _valueSpan := _valueSpan e |}.

Definition set_keepaliveCallback (c : option jsfun) (e : SessionTimeout)
  : SessionTimeout :=
  {| this_after := this_after e; this_before := this_before e;
     this_end := this_end e; this_start := this_start e;
     this_isPast := this_isPast e; this_diff := this_diff e;
     _duration := _duration e; _end := _end e; _timeout := _timeout e;
     _lastInteraction := _lastInteraction e; _lastKeep := _lastKeep e;
     _keepalive := _keepalive e; _keepaliveCallback := c;
     _msgSpan := _msgSpan e; _valueSpan := _valueSpan e |}.

(** ** A monad for the methods: state, and exceptions that keep the state *)

Inductive Outcome (A : Type) : Type :=
| Return (a : A)
| Throw (message : string).
Arguments Return {A} a.
Arguments Throw {A} message.

Definition M (A : Type) : Type := World -> Outcome A * World.

Definition ret {A} (a : A) : M A := fun w => (Return a, w).

Definition bind {A B} (m : M A) (k : A -> M B) : M B :=
  fun w => match m w with
           | (Return a, w') => k a w'
           | (Throw msg, w') => (Throw msg, w')
           end.

Definition throw {A} (msg : string) : M A := fun w => (Throw msg, w).

(** [try { m } catch (e) { h e.message }] *)
Definition try_catch {A} (m : M A) (h : string -> M A) : M A :=
  fun w => match m w with
           | (Return a, w') => (Return a, w')
           | (Throw msg, w') => h msg w'
           end.

Declare Scope js_scope.
Delimit Scope js_scope with js.
Notation "x <- m ;; k" := (bind m (fun x => k))
  (at level 100, m at next level, right associativity) : js_scope.
Notation "m ;; k" := (bind m (fun _ => k))
  (at level 100, right associativity) : js_scope.
Local Open Scope js_scope.

Definition get_this : M SessionTimeout := fun w => (Return (this w), w).

Definition modify_this (f : SessionTimeout -> SessionTimeout) : M unit :=
  fun w => (Return tt, with_this f w).

(** [Date.now()]: the next reading of the clock. *)
Definition Date_now : M Z :=
  fun w => (Return (clock w (reads w)),
            {| clock := clock w; reads := S (reads w); this := this w;
               dispatched := dispatched w; console := console w;
               timers := timers w; nextTimer := nextTimer w;
               windowListeners := windowListeners w;
               callbackCalls := callbackCalls w |}).

(** [this.dispatchEvent(e)] *)
Definition dispatchEvent (e : CustomEvent) : M unit :=
  fun w => (Return tt,
            {| clock := clock w; reads := reads w; this := this w;
               dispatched := dispatched w ++ [e]; console := console w;
               timers := timers w; nextTimer := nextTimer w;
               windowListeners := windowListeners w;
               callbackCalls := callbackCalls w |}).

(** [console.warn] and [console.error] *)
Definition console_log (l : LogLevel) (msg : string) : M unit :=
  fun w => (Return tt,
            {| clock := clock w; reads := reads w; this := this w;
               dispatched := dispatched w; console := console w ++ [(l, msg)];
               timers := timers w; nextTimer := nextTimer w;
               windowListeners := windowListeners w;
               callbackCalls := callbackCalls w |}).

(** [clearTimeout(h)]: cancels the timer [h] if it is pending; [null] and
    handles of timers that are gone are ignored. *)
Definition clearTimeout (h : option nat) : M unit :=
  fun w => (Return tt,
            {| clock := clock w; reads := reads w; this := this w;
               dispatched := dispatched w; console := console w;
               timers := match h with
                         | None => timers w
                         | Some id =>
                             filter (fun t => negb (Nat.eqb (fst t) id)) (timers w)
                         end;
               nextTimer := nextTimer w;
               windowListeners := windowListeners w;
               callbackCalls := callbackCalls w |}).

(** [setTimeout(this.updateStrings(context), delay)]: a fresh handle. *)
Definition setTimeout (delay : Z) : M nat :=
  fun w => (Return (nextTimer w),
            {| clock := clock w; reads := reads w; this := this w;
               dispatched := dispatched w; console := console w;
               timers := timers w ++ [(nextTimer w, delay)];
               nextTimer := S (nextTimer w);
               windowListeners := windowListeners w;
               callbackCalls := callbackCalls w |}).

Definition Listener_eqb (a b : Listener) : bool :=
  match a, b with
  | L_setSessionEnd, L_setSessionEnd => true
  | L_resetEnd, L_resetEnd => true
  | _, _ => false
  end.

Definition same_registration (a b : string * Listener) : bool :=
  String.eqb (fst a) (fst b) && Listener_eqb (snd a) (snd b).

(** [window.addEventListener(type, cb)]; a callback that is [undefined]
    registers nothing, and neither does one already registered for [type]. *)
Definition addEventListener (type : string) (cb : option Listener) : M unit :=
  fun w => (Return tt,
            {| clock := clock w; reads := reads w; this := this w;
               dispatched := dispatched w; console := console w;
               timers := timers w; nextTimer := nextTimer w;
               windowListeners :=
                 match cb with
                 | None => windowListeners w
                 | Some l =>
                     if existsb (same_registration (type, l)) (windowListeners w)
                     then windowListeners w
                     else windowListeners w ++ [(type, l)]
                 end;
               callbackCalls := callbackCalls w |}).

(** Calling a value: a function runs (and is counted); anything else is
    a [TypeError]. *)
Definition call_value (name : string) (v : jsval) : M unit :=
  match v with
  | JFunction f =>
      fun w =>
        (match fun_call f with
         | Normal => Return tt
         | Throws msg => Throw msg
         end,
         {| clock := clock w; reads := reads w; this := this w;
            dispatched := dispatched w; console := console w;
            timers := timers w; nextTimer := nextTimer w;
            windowListeners := windowListeners w;
            callbackCalls := S (callbackCalls w) |})
  | _ => throw (name ++ " is not a function")%string
  end.

(** ** Dates and strings *)

(** [new Date(n)]: the time value is clipped to the range of a [Date]. *)
Definition Date_of (n : jsnum) : Date :=
  match n with
  | Num t => if Z.abs t <=? 8640000000000000 then mkDate (Num t) else mkDate NaN
  | NaN => mkDate NaN
  end.

(** [new Date()]: the current time, one reading of the clock. *)
Definition new_Date : M Date :=
  t <- Date_now ;; ret (mkDate (Num t)).

(** [x < t] for a number [x] that may be [NaN]. *)
Definition num_lt (x : jsnum) (t : Z) : bool :=
  match x with
  | Num z => z <? t
  | NaN => false
  end.

(** The one-character string holding a double quote. *)
Definition dquote : string := String (ascii_of_nat 34) EmptyString.

(** White space as [String.prototype.trim] sees it, within ASCII. *)
Definition is_space (c : ascii) : bool :=
  let n := nat_of_ascii c in
  (Nat.eqb n 32 || Nat.eqb n 9 || Nat.eqb n 10 || Nat.eqb n 11
   || Nat.eqb n 12 || Nat.eqb n 13)%bool.

Fixpoint trim_start (l : list ascii) : list ascii :=
  match l with
  | [] => []
  | c :: l' => if is_space c then trim_start l' else l
  end.

Definition trim (s : string) : string :=
  string_of_list_ascii
    (rev (trim_start (rev (trim_start (list_ascii_of_string s))))).

(** [d === s] for a [Date] object [d] and a string [s]: an object is never
    strictly equal to a string. *)
Definition Date_strict_eq_string (d : Date) (s : string) : bool := false.

(** ** Utility methods *)

(** [emitEvent (event, detail = true)] *)
Definition emitEvent (event : string) (detail_ : option bool) : M unit :=
  dispatchEvent
    {| ev_type := event; bubbles := true; composed := true;
       detail := match detail_ with Some d => d | None => true end |}.

Definition setEndInner (newEnd : Date) : M unit :=
  if Date_strict_eq_string newEnd "invalid date" then
    throw "SessionTimout.setEndInner() expected only parameter to be an IOS8601 date time string."
  else
    now <- Date_now ;;
    if num_lt (valueOf newEnd) now then
      console_log Warn
        "<session-timeout> expects new end date-time to be later than now"
    else
      modify_this (set_end newEnd).

Definition setEnd (dateTimeStr : jsval) : M unit :=
  match dateTimeStr with
  | JString s =>
      if String.eqb (trim s) "" then
        throw "SessionTimout.setEnd() expected only parameter to be a non-empty string"
      else
        d <- new_Date ;; setEndInner d
  | _ =>
      throw "SessionTimout.setEnd() expected only parameter to be a non-empty string"
  end.

(** One run of the function [updateStrings(context)] returns, with
    [context] the element itself.  [context.timeout] is not a property of the
    element, so the guard [context.timeout !== null] holds and the pending
    timer is always cleared.  The [console.log] tracing is left out. *)
Definition updateStrings : M unit :=
  e <- get_this ;;
  clearTimeout (_timeout e) ;;
  tmpNow <- Date_now ;;
  match _end e with
  | None => throw "Cannot read properties of null (reading 'valueOf')"
  | Some d =>
      let tmp := getDurationData tmpNow (valueOf d)
                   (this_before e) (this_after e) (this_start e) (this_end e) in
      (if negb (this_isPast e) && isPast tmp
       then emitEvent "sessionexpired" None
       else ret tt) ;;
      modify_this (set_isPast_diff (isPast tmp) (diff tmp)) ;;
      modify_this
        (set_spans ("Session " ++ prefixTxt tmp ++ startWord tmp ++ " ")%string
                   (dynamicDuration tmp ++ endWord tmp)%string) ;;
      if negb (invalid tmp) && (diff tmp <? 28800) then
        h <- setTimeout (timeout tmp) ;;
        modify_this (set_timeout h)
      else ret tt
  end.

(** ** Getters and setters *)

(** [get keepalive ()] *)
Definition keepalive (e : SessionTimeout) : Z := _keepalive e.

(** [set keepaliveCallback (input)] *)
Definition set_keepaliveCallback_prop (input : jsval) : M unit :=
  match input with
  | JNull => ret tt
  | JFunction f => modify_this (set_keepaliveCallback (Some f))
  | _ =>
      console_log Error
        ("<session-timout> attribute `keepaliveCallback` must be a function that expects no arguments. found "
           ++ typeof input)%string
  end.

(** Reading [this.keepaliveCallback]: the class declares a setter for this
    property and no getter, so the read gives [undefined]. *)
Definition keepaliveCallback (e : SessionTimeout) : jsval := JUndefined.

(** ** Event handlers *)

Definition updateKeepAlive : M unit :=
  now <- Date_now ;;
  modify_this (set_lastInteraction now) ;;
  e <- get_this ;;
  if (_lastInteraction e - _lastKeep e) >? keepalive e * 1000 then
    modify_this (set_lastKeep (_lastInteraction e)) ;;
    match _keepaliveCallback e with
    | None => emitEvent "keepalive" (Some true)
    | Some _ =>
        try_catch
          (call_value "this.keepaliveCallback" (keepaliveCallback e))
          (fun msg =>
             console_log Error
               ("<session-timeout> caught error when calling keepaliveCallback(): "
                  ++ msg)%string ;;
             modify_this (set_keepaliveCallback None) ;;
             emitEvent "keepalive" (Some true))
    end
  else ret tt.

(** An event as the handlers look at it: its type, [event.target.value]
    when [event.target] is defined, and [event.detail]. *)
Record Event : Type := mkEvent {
  e_type : string;
  e_target_value : option jsval;
  e_detail : jsval
}.

Definition setSessionEnd (event : Event) : M unit :=
  let when :=
    match e_target_value event with
    | Some (JString s) => JString s
    | _ => e_detail event
    end in
  match when with
  | JString _ => setEnd when
  | _ =>
      throw ("<session-timeout> expected " ++ dquote ++ "setsessionend" ++ dquote
             ++ " event to contain either a `event.details` property or an `event.target.value`")%string
  end.

Definition resetEnd : M unit :=
  now <- Date_now ;;
  e <- get_this ;;
  setEndInner (Date_of (Num (now + _duration e))).

Definition watchableEvents : list string :=
  ["onfocus"; "onblur"; "keyup"; "mousedown"; "onscroll"].

Definition minKeepalive : Z := 30.

(** [for (const event of l) { window.addEventListener(event,
    this.updateKeepAlive()); }]: the method is called, and what it returns,
    [undefined], is what is registered. *)
Fixpoint addKeepAliveListeners (l : list string) : M unit :=
  match l with
  | [] => ret tt
  | event :: l' =>
      updateKeepAlive ;;
      addEventListener event None ;;
      addKeepAliveListeners l'
  end.

Definition setListeners : M unit :=
  addEventListener "setsessionend" (Some L_setSessionEnd) ;;
  addEventListener "resetsession" (Some L_resetEnd) ;;
  e <- get_this ;;
  if keepalive e >? minKeepalive then addKeepAliveListeners watchableEvents
  else ret tt.

(** ** The host's event loop *)

(** A listener that [window] calls runs with [this] bound to [window], which
    has neither a [setEnd] nor a [setEndInner] method; the arguments of the
    call are evaluated before it fails. *)
Definition runListener (l : Listener) (event : Event) : M unit :=
  match l with
  | L_setSessionEnd =>
      let when :=
        match e_target_value event with
        | Some (JString s) => JString s
        | _ => e_detail event
        end in
      match when with
      | JString _ => call_value "this.setEnd" JUndefined
      | _ =>
          throw ("<session-timeout> expected " ++ dquote ++ "setsessionend" ++ dquote
                 ++ " event to contain either a `event.details` property or an `event.target.value`")%string
      end
  | L_resetEnd =>
      Date_now ;; call_value "this.setEndInner" JUndefined
  end.

(** [event] reaches [window]: the listeners registered for its type run in
    order of registration; what a listener throws is reported to the console
    and stops nothing. *)
Fixpoint deliver (ls : list (string * Listener)) (event : Event) : M unit :=
  match ls with
  | [] => ret tt
  | (type, l) :: ls' =>
      (if String.eqb type (e_type event)
       then try_catch (runListener l event)
              (fun msg => console_log Error ("Uncaught " ++ msg)%string)
       else ret tt) ;;
      deliver ls' event
  end.

Definition windowDispatch (event : Event) : M unit :=
  fun w => deliver (windowListeners w) event w.

(** The world after a method has run, whether it returned or threw. *)
Definition exec {A} (m : M A) (w : World) : World := snd (m w).

(** [n] successive runs of [m]. *)
Fixpoint exec_n {A} (m : M A) (n : nat) (w : World) : World :=
  match n with
  | O => w
  | S n' => exec_n m n' (exec m w)
  end.


(** The two notifications of the engine. *)
Definition sessionexpired_event : CustomEvent :=
  {| ev_type := "sessionexpired"; bubbles := true; composed := true;
     detail := true |}.

Definition keepalive_event : CustomEvent :=
  {| ev_type := "keepalive"; bubbles := true; composed := true;
     detail := true |}.

(** The result a tick of [w] computes, from the next reading of the clock
    and the end date [d]. *)
Definition tickResult (w : World) (i : nat) (d : Date) : DurationData :=
  getDurationData (clock w (reads w + i)) (valueOf d)
    (this_before (this w)) (this_after (this w))
    (this_start (this w)) (this_end (this w)).

(** ** The unit selection as the specification words it *)

(** The thresholds in the order they are evaluated. *)
Definition thresholds : list (Z * string) :=
  [(31557600, "year"); (2629800, "month"); (604800, "week");
   (86400, "day"); (3600, "hour"); (60, "minute")].

(** The first threshold strictly exceeded by [d], if any. *)
Definition firstExceeded (d : Z) : option (Z * string) :=
  find (fun p => d >? fst p) thresholds.

(** The reschedule seconds of the specification for the selected threshold
    [m]: the remainder when in the future and positive, else [m]. *)
Definition chosenSeconds (d : Z) (past : bool) (m : Z) : Z :=
  if negb past && (d mod m >? 0) then d mod m else m.

(** The special correction: in the future, [d <> 0] and a multiple of 60. *)
Definition correctedSeconds (d : Z) (past : bool) (c : Z) : Z :=
  if negb past && negb (d =? 0) && (c mod 60 =? 0) then 1 else c.

(** What is displayed for [d] seconds, in the words of the specification. *)
Definition displayed (d : Z) : string * Z :=
  match firstExceeded d with
  | Some (m, u) => (u, d / m)
  | None => ("second", d)
  end.

(** ** Runs of the controller *)

(** What the host can make the element do once it is configured: a timer
    fires, a method is called, or an event reaches [window]. *)
Inductive Call : Type :=
| CallTick
| CallUpdateKeepAlive
| CallSetEnd (dateTimeStr : jsval)
| CallSetSessionEnd (event : Event)
| CallResetEnd
| CallSetListeners
| CallWindowEvent (event : Event).

Definition call (c : Call) : M unit :=
  match c with
  | CallTick => updateStrings
  | CallUpdateKeepAlive => updateKeepAlive
  | CallSetEnd v => setEnd v
  | CallSetSessionEnd ev => setSessionEnd ev
  | CallResetEnd => resetEnd
  | CallSetListeners => setListeners
  | CallWindowEvent ev => windowDispatch ev
  end.

Fixpoint run (cs : list Call) (w : World) : World :=
  match cs with
  | [] => w
  | c :: cs' => run cs' (exec (call c) w)
  end.


(** The notifications [emitEvent] sends by default. *)
Definition default_event (e : CustomEvent) : Prop :=
  e = keepalive_event \/ e = sessionexpired_event.

(** From [w] to [w'] a handler that was [null] stayed [null], no handler
    body ran, and what was dispatched are default notifications. *)
Definition on_default_path (w w' : World) : Prop :=
  (_keepaliveCallback (this w) = None -> _keepaliveCallback (this w') = None) /\
  callbackCalls w' = callbackCalls w /\
  exists l, dispatched w' = dispatched w ++ l /\ Forall default_event l.

Definition stays_default {A} (m : M A) : Prop :=
  forall w, on_default_path w (exec m w).

(** ** Sample hosts *)

(** A host whose clock reads [t0] first and [step] more at each reading,
    around the element [e], with nothing dispatched, logged, scheduled or
    registered yet. *)
Definition hostAt (t0 step : Z) (e : SessionTimeout) : World :=
  {| clock := fun n => t0 + step * Z.of_nat n; reads := 0; this := e;
     dispatched := []; console := []; timers := []; nextTimer := 0;
     windowListeners := []; callbackCalls := 0 |}.

(** The constructed element with its end date at [t]. *)
Definition endingAt (t : Z) : SessionTimeout :=
  set_end (mkDate (Num t)) constructed.

(** The constructed element with a keepalive threshold of [k] seconds and the
    custom handler [c]. *)
Definition keptAlive (k : Z) (c : option jsfun) : SessionTimeout :=
  {| this_after := "expired"; this_before := "expires"; this_end := "ago";
     this_start := "in"; this_isPast := false; this_diff := None;
     _duration := 0; _end := None; _timeout := None;
     _lastInteraction := 0; _lastKeep := 0; _keepalive := k;
     _keepaliveCallback := c; _msgSpan := ""; _valueSpan := "" |}.

(** ** The rest of the element: parsing, setters and life cycle *)

Definition is_digit (c : ascii) : bool :=
  let n := nat_of_ascii c in ((48 <=? n) && (n <=? 57))%nat.

Definition digit_value (c : ascii) : Z := Z.of_nat (nat_of_ascii c) - 48.

(** The decimal digits at the head of [l], read from the left onto [acc];
    [None] while no digit has been read. *)
Fixpoint parse_digits (l : list ascii) (acc : option Z) : option Z :=
  match l with
  | [] => acc
  | c :: l' =>
      if is_digit c then
        parse_digits l'
          (Some (10 * match acc with Some a => a | None => 0 end
                 + digit_value c))
      else acc
  end.

(** [Number.MAX_SAFE_INTEGER], [2^53 - 1]: up to it in magnitude every
    integer is a double, and arithmetic on such integers with such a result
    is exact. *)
Definition MAX_SAFE_INTEGER : Z := 9007199254740991.

(** The number an integer becomes: itself below [2^53] in magnitude, and
    beyond that the nearest double, ties going to the even significand of
    53 bits.  From [2^1024] on the rounded value is [Infinity] in the code;
    the callers of [parseInt] here refuse it together with [NaN] (by
    [Number.isFinite]), and the model gives [NaN] for both. *)
Definition to_double (z : Z) : jsnum :=
  let a := Z.abs z in
  if a <? 9007199254740992 then Num z
  else
    let e := Z.log2 a - 52 in
    let q := a / 2 ^ e in
    let r := a mod 2 ^ e in
    let half := 2 ^ (e - 1) in
    let q' := if (r >? half) || ((r =? half) && Z.odd q) then q + 1 else q in
    let m := q' * 2 ^ e in
    if m <? 2 ^ 1024 then Num (Z.sgn z * m) else NaN.

(** The integer [parseInt(s, 10)] reads: leading white space is skipped,
    then an optional sign, then the digits up to the first character that
    is not one; [None] when there is no digit. *)
Definition parseInt_integer (s : string) : option Z :=
  let l := trim_start (list_ascii_of_string s) in
  let signed :=
    match l with
    | c :: r =>
        if Ascii.eqb c "-" then (-1, r)
        else if Ascii.eqb c "+" then (1, r)
        else (1, l)
    | [] => (1, l)
    end in
  match parse_digits (snd signed) None with
  | Some n => Some (fst signed * n)
  | None => None
  end.

(** [parseInt(s, 10)]: the integer read, as a number; no digit gives
    [NaN]. *)
Definition parseInt (s : string) : jsnum :=
  match parseInt_integer s with
  | Some z => to_double z
  | None => NaN
  end.

(** [Math.round] *)
Definition Math_round (q : Q) : Z := Qfloor (q + (1 # 2))%Q.

Definition duration_error : string :=
  "<session-timeout> expects required " ++ dquote ++ "duration" ++ dquote
  ++ " attribute to be the number of milliseconds a session will last".

(** [sanitiseDuation (duration)], on strings and on numbers that are
    integers or [NaN]; a number of these is always finite.  It reads and
    writes nothing of the element. *)
Definition sanitiseDuation (duration : jsval) : Outcome Z :=
  let _tmp :=
    match duration with
    | JString s => JNumber (parseInt s)
    | _ => duration
    end in
  match _tmp with
  | JNumber (Num n) =>
      let mod_ := Z.rem n 1 in
      let output := if mod_ >? 0 then Math_round (inject_Z n) else n in
      Return (if output <? 180000 then output * 1000 else output)
  | _ => Throw duration_error
  end.

(** A computation that only returns or throws. *)
Definition liftO {A} (o : Outcome A) : M A := fun w => (o, w).

Definition set_duration (d : Z) (e : SessionTimeout) : SessionTimeout :=
  {| this_after := this_after e; this_before := this_before e;
     this_end := this_end e; this_start := this_start e;
     this_isPast := this_isPast e; this_diff := this_diff e;
     _duration := d; _end := _end e; _timeout := _timeout e;
     _lastInteraction := _lastInteraction e; _lastKeep := _lastKeep e;
     _keepalive := _keepalive e; _keepaliveCallback := _keepaliveCallback e;
     _msgSpan := _msgSpan e; _valueSpan := _valueSpan e |}.

Definition set_keepalive (k : Z) (e : SessionTimeout) : SessionTimeout :=
  {| this_after := this_after e; this_before := this_before e;
     this_end := this_end e; this_start := this_start e;
     this_isPast := this_isPast e; this_diff := this_diff e;
     _duration := _duration e; _end := _end e; _timeout := _timeout e;
     _lastInteraction := _lastInteraction e; _lastKeep := _lastKeep e;
     _keepalive := k; _keepaliveCallback := _keepaliveCallback e;
     _msgSpan := _msgSpan e; _valueSpan := _valueSpan e |}.


(** [get duration ()] *)
Definition duration (e : SessionTimeout) : Z := _duration e.

(** [`${v}`]; an integer prints as its decimal digits (below [1e21] in
    magnitude); the source text of a function is not part of the model. *)
Definition ToString (v : jsval) : string :=
  match v with
  | JUndefined => "undefined"
  | JNull => "null"
  | JString s => s
  | JNumber (Num n) => Z_to_string n
  | JNumber NaN => "NaN"
  | JFunction _ => "function"
  end.

Definition keepalive_error (input : jsval) : string :=
  "<session-timout> attribute `keepalive` number or numeric string, greater than zero. "
  ++ dquote ++ ToString input ++ dquote
  ++ " could not be used as keepalive value.".

(** [set keepalive (input)] *)
Definition set_keepalive_prop (input : jsval) : M unit :=
  let tmp :=
    match input with
    | JString s => JNumber (parseInt s)
    | _ => input
    end in
  match tmp with
  | JNumber (Num n) =>
      if n <? 0 then console_log Error (keepalive_error input)
      else modify_this (set_keepalive n)
  | _ => console_log Error (keepalive_error input)
  end.

(** [hay.includes(needle)] *)
Definition includes (hay needle : string) : bool :=
  match index 0 needle hay with
  | Some _ => true
  | None => false
  end.

(** [set when (input)] *)
Definition set_when_prop (input : jsval) : M unit :=
  try_catch (setEnd input)
    (fun msg =>
       if negb (includes msg "non-empty") then console_log Error msg
       else ret tt).

(** Reading [this.when]: a setter and no getter, so [undefined]. *)
Definition when_get (e : SessionTimeout) : jsval := JUndefined.

Fixpoint remove_registration (r : string * Listener)
  (ls : list (string * Listener)) : list (string * Listener) :=
  match ls with
  | [] => []
  | x :: ls' =>
      if same_registration r x then ls' else x :: remove_registration r ls'
  end.

(** [window.removeEventListener(type, cb)]; nothing for [undefined]. *)
Definition removeEventListener (type : string) (cb : option Listener) : M unit :=
  fun w => (Return tt,
            {| clock := clock w; reads := reads w; this := this w;
               dispatched := dispatched w; console := console w;
               timers := timers w; nextTimer := nextTimer w;
               windowListeners :=
                 match cb with
                 | None => windowListeners w
                 | Some l => remove_registration (type, l) (windowListeners w)
                 end;
               callbackCalls := callbackCalls w |}).

(** [for (const event of l) { window.removeEventListener(event,
    this.updateKeepAlive()); }] *)
Fixpoint removeKeepAliveListeners (l : list string) : M unit :=
  match l with
  | [] => ret tt
  | event :: l' =>
      updateKeepAlive ;;
      removeEventListener event None ;;
      removeKeepAliveListeners l'
  end.

Definition clearListeners : M unit :=
  removeEventListener "setsessionend" (Some L_setSessionEnd) ;;
  removeEventListener "resetsession" (Some L_resetEnd) ;;
  e <- get_this ;;
  if keepalive e >? minKeepalive then removeKeepAliveListeners watchableEvents
  else ret tt.

Definition disconnectedCallback : M unit :=
  clearListeners ;;
  e <- get_this ;;
  match _timeout e with
  | Some _ => clearTimeout (_timeout e)
  | None => ret tt
  end.

(** The attributes of the element, by name. *)
Definition hasAttribute (attrs : list (string * string)) (name : string) : bool :=
  existsb (fun a => String.eqb (fst a) name) attrs.

Definition getAttribute (attrs : list (string * string)) (name : string) : jsval :=
  match find (fun a => String.eqb (fst a) name) attrs with
  | Some a => JString (snd a)
  | None => JNull
  end.

(** [connectedCallback ()] of an element carrying the attributes [attrs].
    The property [_when] it assigns is read nowhere and is left out. *)
Definition connectedCallback (attrs : list (string * string)) : M unit :=
  (if hasAttribute attrs "duration" then
     d <- liftO (sanitiseDuation (getAttribute attrs "duration")) ;;
     modify_this (set_duration d)
   else ret tt) ;;
  (if hasAttribute attrs "when" then setEnd (getAttribute attrs "when")
   else ret tt) ;;
  (if hasAttribute attrs "keepalive" then
     k <- liftO (sanitiseDuation (getAttribute attrs "keepalive")) ;;
     modify_this (set_keepalive k)
   else ret tt) ;;
  e <- get_this ;;
  (match when_get e with
   | JString s => if String.eqb (trim s) "" then resetEnd else setEnd (JString s)
   | _ => resetEnd
   end) ;;
  setListeners ;;
  h <- setTimeout 1000 ;;
  modify_this (set_timeout h).

(** At most one timer is pending, and [_timeout] names it. *)
Definition one_timer (w : World) : Prop :=
  timers w = [] \/
  exists id delay, timers w = [(id, delay)] /\ _timeout (this w) = Some id.

(** [m] leaves the observation [g] of the world as it was. *)
Definition keeps {A B} (g : World -> B) (m : M A) : Prop :=
  forall w, g (exec m w) = g w.

(** The pending timers and the handle the element holds. *)
Definition timer_state (w : World) : list (nat * Z) * option nat :=
  (timers w, _timeout (this w)).

(** The timers left by [clearTimeout (_timeout (this w))]. *)
Definition cleared (w : World) : list (nat * Z) :=
  match _timeout (this w) with
  | None => timers w
  | Some id => filter (fun t => negb (Nat.eqb (fst t) id)) (timers w)
  end.

(** Text at which the reading of a number stops: nothing, or something
    that does not start with a digit. *)
Definition stops_number (rest : list ascii) : Prop :=
  match rest with
  | [] => True
  | c :: _ => is_digit c = false
  end.

(** The timers and the next handle: what scheduling changes. *)
Definition schedule_state (w : World) : list (nat * Z) * nat :=
  (timers w, nextTimer w).

(** The keepalive threshold the element holds. *)
Definition keepalive_state (w : World) : Z := _keepalive (this w).

(** [m] never throws. *)
Definition returns {A} (m : M A) : Prop :=
  forall w, exists a w', m w = (Return a, w').

(** * Properties of the duration calculator *)

Section DurationCalculator.

Variables (before after start end_ : string).

Lemma Math_floor_js_div (a b : Z) : 0 < b -> Math_floor (js_div a b) = a / b.
Proof.
  intros Hb. destruct b as [|p|p]; try lia.
  unfold Math_floor, js_div, Qdiv, Qinv, Qmult, Qfloor, inject_Z.
  cbn [Qnum Qden]. f_equal; lia.
Qed.

Lemma Math_floor_inject_Z (a : Z) : Math_floor (inject_Z a) = a.
Proof. unfold Math_floor. apply Qfloor_Z. Qed.

Lemma signedDiff_div (now target : Z) :
  signedDiff now target = (target - now) / 1000.
Proof. unfold signedDiff. apply Math_floor_js_div. lia. Qed.

(** The index loop of the source picks the first threshold exceeded. *)
Lemma bestUnit_firstExceeded (d : Z) (past : bool) :
  bestUnit d past =
  match firstExceeded d with
  | Some (m, u) =>
      {| lv_extra := Z.rem d m;
         lv_next := if (Z.rem d m >? 0) && negb past then Z.rem d m else m;
         lv_humanVal := js_div d m;
         lv_unit := u |}
  | None =>
      {| lv_extra := 0; lv_next := 1;
         lv_humanVal := inject_Z d; lv_unit := "second" |}
  end.
Proof.
  unfold bestUnit, firstExceeded, thresholds.
  cbv [unitLoop units multipliers List.length nth Nat.ltb Nat.leb find fst].
  repeat (match goal with
          | |- context [?x >? ?y] => destruct (x >? y); [reflexivity|]
          end).
  reflexivity.
Qed.

Lemma firstExceeded_some (d m : Z) (u : string) :
  firstExceeded d = Some (m, u) -> 60 <= m /\ m < d /\ In (m, u) thresholds.
Proof.
  intros H. unfold firstExceeded in H.
  apply find_some in H. destruct H as [Hin Hgt].
  cbn [fst] in Hgt. apply Z.gtb_lt in Hgt.
  repeat split; try lia; try assumption.
  unfold thresholds in Hin. cbn [In] in Hin.
  repeat (destruct Hin as [Hin|Hin]; [inversion Hin; lia|]).
  contradiction.
Qed.

Lemma diff_nonneg (now target : Z) :
  0 <= diff (getDurationData now (Num target) before after start end_).
Proof.
  cbn [getDurationData diff].
  destruct (signedDiff now target <? 0) eqn:E.
  - apply Z.ltb_lt in E. lia.
  - apply Z.ltb_ge in E. lia.
Qed.

End DurationCalculator.

(** The scenario of the specification: five minutes ahead. *)
Example scenario_five_minutes :
  getDurationData 1000000000000 (Num 1000000300000)
    "expires" "expired" "in" "ago"
  = {| dynamicDuration := "5 minutes"; diff := 300; endWord := "";
       invalid := false; isPast := false; prefixTxt := "expires";
       startWord := " in"; timeout := 1000 |}.
Proof. vm_compute. reflexivity. Qed.

(** The seconds of the result, in terms of integer division. *)
Lemma diff_past_or_future (now target : Z) (b a s e : string) :
  let r := getDurationData now (Num target) b a s e in
  isPast r = ((target - now) / 1000 <? 0) /\
  diff r = Z.abs ((target - now) / 1000).
Proof.
  cbn [getDurationData diff isPast]. rewrite signedDiff_div.
  destruct ((target - now) / 1000 <? 0) eqn:E; split; try reflexivity.
  - apply Z.ltb_lt in E. lia.
  - apply Z.ltb_ge in E. lia.
Qed.

(** The reschedule seconds when a threshold [m] was selected. *)
Lemma lv_next_selected (d m : Z) (u : string) (past : bool) :
  0 <= d -> firstExceeded d = Some (m, u) ->
  lv_next (bestUnit d past) = chosenSeconds d past m /\
  1 <= chosenSeconds d past m.
Proof.
  intros Hd H. rewrite bestUnit_firstExceeded, H. cbn [lv_next].
  apply firstExceeded_some in H. destruct H as (Hm & _ & _).
  rewrite Z.rem_mod_nonneg by lia. unfold chosenSeconds.
  rewrite andb_comm. split; [reflexivity|].
  destruct (negb past && (d mod m >? 0)) eqn:E; [|lia].
  apply andb_prop in E. destruct E as [_ E]. apply Z.gtb_lt in E. lia.
Qed.

(** C1, as stated, at [now = target = 2000]: the result is not past. *)
Lemma C1_counterexample :
  ~ (2000 <= 2000 ->
     let r := getDurationData 2000 (Num 2000) "expires" "expired" "in" "ago" in
     isPast r = true /\ diff r = (2000 - 2000) / 1000).
Proof.
  intros H. specialize (H ltac:(lia)). destruct H as [H _].
  vm_compute in H. discriminate H.
Qed.

(** Half a second after the target the result is one second past, where
    [floor((now - target) / 1000)] is zero. *)
Example past_rounds_up :
  let r := getDurationData 1500 (Num 1000) "expires" "expired" "in" "ago" in
  isPast r = true /\ diff r = 1 /\ (1500 - 1000) / 1000 = 0.
Proof. vm_compute. repeat split. Qed.

(** C1 (amended): for [target <= now] the result is past exactly when
    [target < now] (at [target = now] it is not), and its seconds are
    [ceil((now - target) / 1000)], that is [- floor((target - now) / 1000)]:
    a non-negative value, equal to [floor((now - target) / 1000)] when
    [now - target] is a multiple of 1000. *)
Theorem C1_past_seconds (now target : Z) (b a s e : string) :
  target <= now ->
  let r := getDurationData now (Num target) b a s e in
  isPast r = (target <? now) /\
  diff r = - ((target - now) / 1000) /\
  diff r = (now - target + 999) / 1000 /\
  0 <= diff r /\
  ((now - target) mod 1000 = 0 -> diff r = (now - target) / 1000).
Proof.
  intros Hle r.
  destruct (diff_past_or_future now target b a s e) as [Hp Hd].
  fold r in Hp, Hd.
  pose proof (Z.div_mod (target - now) 1000 ltac:(lia)) as E1.
  pose proof (Z.mod_pos_bound (target - now) 1000 ltac:(lia)) as B1.
  pose proof (Z.div_mod (now - target + 999) 1000 ltac:(lia)) as E2.
  pose proof (Z.mod_pos_bound (now - target + 999) 1000 ltac:(lia)) as B2.
  pose proof (Z.div_mod (now - target) 1000 ltac:(lia)) as E3.
  pose proof (Z.mod_pos_bound (now - target) 1000 ltac:(lia)) as B3.
  assert (Hq : (target - now) / 1000 <= 0) by lia.
  rewrite Hp, Hd.
  repeat split; lia.
Qed.

Lemma C1_past_seconds_witness :
  1000 <= 4500 /\
  diff (getDurationData 4500 (Num 1000) "expires" "expired" "in" "ago") = 4.
Proof.
  split; [lia|].
  destruct (C1_past_seconds 4500 1000 "expires" "expired" "in" "ago"
              ltac:(lia)) as (_ & _ & H & _).
  rewrite H. reflexivity.
Defined.

(** C2: when a threshold [m] was selected, the value shown is
    [floor(diff / m)] and, with [extra = diff % m], the reschedule is [extra]
    seconds in the future with [extra > 0] and the full [m] seconds
    otherwise (always [m] when past); in the future, with [diff <> 0], a
    reschedule that is a multiple of 60 becomes 1 second; the delay is the
    reschedule seconds times 1000. *)
Theorem C2_reschedule (now target m : Z) (u b a s e : string) :
  let r := getDurationData now (Num target) b a s e in
  firstExceeded (diff r) = Some (m, u) ->
  let v := bestUnit (diff r) (isPast r) in
  let extra := diff r mod m in
  invalid r = false /\
  Math_floor (lv_humanVal v) = diff r / m /\
  lv_extra v = extra /\
  lv_next v = chosenSeconds (diff r) (isPast r) m /\
  (isPast r = false -> 0 < extra -> lv_next v = extra) /\
  (isPast r = false -> extra = 0 -> lv_next v = m) /\
  (isPast r = true -> lv_next v = m) /\
  rescheduleSeconds (diff r) (isPast r) =
    correctedSeconds (diff r) (isPast r) (lv_next v) /\
  timeout r = rescheduleSeconds (diff r) (isPast r) * 1000.
Proof.
  intros r H v extra.
  pose proof (diff_nonneg b a s e now target) as Hd. fold r in Hd.
  destruct (lv_next_selected (diff r) m u (isPast r) Hd H) as [Hn Hpos].
  fold v in Hn.
  pose proof (firstExceeded_some _ _ _ H) as (Hm & Hlt & _).
  assert (Hv : v = {| lv_extra := Z.rem (diff r) m;
                      lv_next := if (Z.rem (diff r) m >? 0) && negb (isPast r)
                                 then Z.rem (diff r) m else m;
                      lv_humanVal := js_div (diff r) m;
                      lv_unit := u |}).
  { unfold v. rewrite bestUnit_firstExceeded, H. reflexivity. }
  split; [reflexivity|].
  split; [rewrite Hv; cbn [lv_humanVal]; apply Math_floor_js_div; lia|].
  split; [rewrite Hv; cbn [lv_extra]; apply Z.rem_mod_nonneg; lia|].
  split; [exact Hn|].
  split; [intros Hp He; rewrite Hn; unfold chosenSeconds; rewrite Hp;
          fold extra; cbn [negb andb];
          destruct (extra >? 0) eqn:E; [reflexivity|lia]|].
  split; [intros Hp He; rewrite Hn; unfold chosenSeconds; rewrite Hp;
          fold extra; rewrite He; reflexivity|].
  split; [intros Hp; rewrite Hn; unfold chosenSeconds; rewrite Hp;
          reflexivity|].
  split; [|reflexivity].
  unfold rescheduleSeconds, correctedSeconds. fold v.
  rewrite Z.rem_mod_nonneg by lia. reflexivity.
Qed.

Lemma C2_reschedule_witness :
  let r := getDurationData 0 (Num 3661000) "expires" "expired" "in" "ago" in
  firstExceeded (diff r) = Some (3600, "hour") /\ timeout r = 61000.
Proof.
  split; [reflexivity|].
  destruct (C2_reschedule 0 3661000 3600 "hour" "expires" "expired" "in" "ago"
              eq_refl) as (_ & _ & _ & _ & _ & _ & _ & _ & H).
  rewrite H. reflexivity.
Defined.

(** The minute-snap rule of the specification: 120 seconds ahead. *)
Example minute_snap :
  let r := getDurationData 0 (Num 120000) "expires" "expired" "in" "ago" in
  diff r = 120 /\ lv_next (bestUnit 120 false) = 60 /\ timeout r = 1000.
Proof. vm_compute. repeat split. Qed.

(** C3: the seconds of a result are non-negative, and the unit shown for
    them is that of the first of the thresholds 31557600 (year), 2629800
    (month), 604800 (week), 86400 (day), 3600 (hour), 60 (minute) that they
    strictly exceed, with the floored quotient as value; when they exceed
    none the unit is "second" and the value the seconds themselves. *)
Theorem C3_unit_selection (now target : Z) (b a s e : string) :
  let r := getDurationData now (Num target) b a s e in
  let v := bestUnit (diff r) (isPast r) in
  let value := Math_floor (lv_humanVal v) in
  0 <= diff r /\
  (lv_unit v, value) = displayed (diff r) /\
  (firstExceeded (diff r) = None -> lv_unit v = "second" /\ value = diff r) /\
  dynamicDuration r =
    if diff r =? 0 then "now"
    else (Z_to_string (snd (displayed (diff r))) ++ " "
            ++ fst (displayed (diff r))
            ++ (if negb (snd (displayed (diff r)) =? 1)%Z then "s" else ""))%string.
Proof.
  intros r v value.
  pose proof (diff_nonneg b a s e now target) as Hd. fold r in Hd.
  assert (Hdisp : (lv_unit v, value) = displayed (diff r)).
  { unfold value, v, displayed. rewrite bestUnit_firstExceeded.
    destruct (firstExceeded (diff r)) as [[m u]|] eqn:E.
    - cbn [lv_unit lv_humanVal].
      apply firstExceeded_some in E. destruct E as (Hm & _ & _).
      rewrite Math_floor_js_div by lia. reflexivity.
    - cbn [lv_unit lv_humanVal]. rewrite Math_floor_inject_Z. reflexivity. }
  split; [exact Hd|]. split; [exact Hdisp|]. split.
  - intros Hnone. unfold displayed in Hdisp. rewrite Hnone in Hdisp.
    apply pair_equal_spec in Hdisp. exact Hdisp.
  - rewrite <- Hdisp. reflexivity.
Qed.

Example displayed_examples :
  displayed 3661 = ("hour", 1) /\ displayed 60 = ("second", 60) /\
  displayed 61 = ("minute", 1) /\ displayed 31557600 = ("month", 12) /\
  displayed 0 = ("second", 0).
Proof. vm_compute. repeat split. Qed.

(** C6, as stated, for the labels "expires" and "in": the prefix label of
    the invalid result is not the before-label. *)
Lemma C6_counterexample :
  ~ (let r := getDurationData 0 NaN "expires" "expired" "in" "ago" in
     invalid r = true /\ dynamicDuration r = "unknown" /\ diff r = 0 /\
     timeout r = 0 /\ prefixTxt r = "expires" /\ startWord r = "" /\
     endWord r = "").
Proof.
  intros (_ & _ & _ & _ & H & _). vm_compute in H. discriminate H.
Qed.

(** C6 (amended): for a target that is [NaN] the result is invalid, with the
    text "unknown", 0 seconds, a delay of 0, an empty prefix label, the
    before-label as start word and an empty end word; it is not past. *)
Theorem C6_invalid_target (now : Z) (b a s e : string) :
  let r := getDurationData now NaN b a s e in
  invalid r = true /\ dynamicDuration r = "unknown" /\ diff r = 0 /\
  timeout r = 0 /\ prefixTxt r = "" /\ startWord r = b /\ endWord r = "" /\
  isPast r = false.
Proof. cbn. repeat split. Qed.

(** C7: a result that is not invalid has a delay of at least 1000
    milliseconds. *)
Theorem C7_delay_at_least_a_second (now : Z) (when : jsnum) (b a s e : string) :
  let r := getDurationData now when b a s e in
  invalid r = false -> 1000 <= timeout r.
Proof.
  intros r Hinv. destruct when as [target|]; [|discriminate Hinv].
  pose proof (diff_nonneg b a s e now target) as Hd. fold r in Hd.
  assert (Ht : timeout r = rescheduleSeconds (diff r) (isPast r) * 1000)
    by reflexivity.
  rewrite Ht. unfold rescheduleSeconds.
  destruct (negb (isPast r) && negb (diff r =? 0)
            && (Z.rem (lv_next (bestUnit (diff r) (isPast r))) 60 =? 0));
    [lia|].
  destruct (firstExceeded (diff r)) as [[m u]|] eqn:E.
  - destruct (lv_next_selected (diff r) m u (isPast r) Hd E) as [Hn Hpos].
    rewrite Hn. lia.
  - rewrite bestUnit_firstExceeded, E. cbn [lv_next]. lia.
Qed.

Lemma C7_delay_at_least_a_second_witness :
  invalid (getDurationData 0 (Num 59000) "expires" "expired" "in" "ago") = false
  /\ 1000 <= timeout (getDurationData 0 (Num 59000) "expires" "expired" "in" "ago").
Proof.
  split; [reflexivity|].
  apply (C7_delay_at_least_a_second 0 (Num 59000) "expires" "expired" "in" "ago").
  reflexivity.
Defined.

(** * Properties of the timeout controller *)

Lemma exec_n_add {A} (m : M A) (j k : nat) (w : World) :
  exec_n m (j + k) w = exec_n m k (exec_n m j w).
Proof.
  revert w. induction j as [|j IH]; intros w; [reflexivity|].
  cbn [Nat.add exec_n]. apply IH.
Qed.

(** What one tick does to the parts of the world the claims speak of. *)
Lemma updateStrings_step (w : World) (d : Date) :
  _end (this w) = Some d ->
  let tmp := tickResult w 0 d in
  let w' := exec updateStrings w in
  dispatched w' =
    dispatched w ++
      (if negb (this_isPast (this w)) && isPast tmp
       then [sessionexpired_event] else []) /\
  this_isPast (this w') = isPast tmp /\
  _end (this w') = Some d /\
  clock w' = clock w /\ reads w' = S (reads w) /\
  this_before (this w') = this_before (this w) /\
  this_after (this w') = this_after (this w) /\
  this_start (this w') = this_start (this w) /\
  this_end (this w') = this_end (this w).
Proof.
  intros He tmp w'. subst w'.
  unfold exec, updateStrings, bind, get_this, clearTimeout, Date_now.
  cbn [fst snd this reads clock]. rewrite He.
  assert (Ht : getDurationData (clock w (reads w)) (valueOf d)
                 (this_before (this w)) (this_after (this w))
                 (this_start (this w)) (this_end (this w)) = tmp).
  { unfold tmp, tickResult. rewrite Nat.add_0_r. reflexivity. }
  rewrite Ht.
  destruct (negb (this_isPast (this w)) && isPast tmp);
    destruct (negb (invalid tmp) && (diff tmp <? 28800));
    cbn; rewrite ?app_nil_r; repeat split; exact He.
Qed.

(** While the results are not past, ticks emit nothing. *)
Lemma ticks_before_expiry (k : nat) :
  forall (w : World) (d : Date),
    _end (this w) = Some d ->
    this_isPast (this w) = false ->
    (forall i, (i < k)%nat -> isPast (tickResult w i d) = false) ->
    let w' := exec_n updateStrings k w in
    dispatched w' = dispatched w /\
    this_isPast (this w') = false /\
    _end (this w') = Some d /\
    (forall i, tickResult w' i d = tickResult w (k + i) d).
Proof.
  induction k as [|k IH]; intros w d He Hp Hres.
  - cbn. repeat split; assumption.
  - cbn [exec_n].
    destruct (updateStrings_step w d He)
      as (Hd & Hp' & He' & Hc & Hr & Hb & Ha & Hs & Hen).
    assert (Hshift : forall i, tickResult (exec updateStrings w) i d
                               = tickResult w (S i) d).
    { intros i. unfold tickResult.
      rewrite Hc, Hr, Hb, Ha, Hs, Hen.
      replace (S (reads w) + i)%nat with (reads w + S i)%nat by lia.
      reflexivity. }
    assert (H0 : isPast (tickResult w 0 d) = false) by (apply Hres; lia).
    rewrite H0 in Hd, Hp'. rewrite andb_false_r, app_nil_r in Hd.
    destruct (IH (exec updateStrings w) d He' Hp') as (I1 & I2 & I3 & I4).
    { intros i Hi. rewrite Hshift. apply Hres. lia. }
    repeat split.
    + rewrite I1. exact Hd.
    + exact I2.
    + exact I3.
    + intros i. rewrite I4, Hshift. reflexivity.
Qed.

(** Once the element is past, ticks whose results stay past emit nothing. *)
Lemma ticks_after_expiry (m : nat) :
  forall (w : World) (d : Date),
    _end (this w) = Some d ->
    this_isPast (this w) = true ->
    (forall i, (i < m)%nat -> isPast (tickResult w i d) = true) ->
    dispatched (exec_n updateStrings m w) = dispatched w.
Proof.
  induction m as [|m IH]; intros w d He Hp Hres; [reflexivity|].
  cbn [exec_n].
  destruct (updateStrings_step w d He)
    as (Hd & Hp' & He' & Hc & Hr & Hb & Ha & Hs & Hen).
  rewrite Hp in Hd. cbn [negb andb] in Hd. rewrite app_nil_r in Hd.
  rewrite (IH (exec updateStrings w) d He').
  - exact Hd.
  - rewrite Hp'. apply Hres. lia.
  - intros i Hi. unfold tickResult.
    rewrite Hc, Hr, Hb, Ha, Hs, Hen.
    replace (S (reads w) + i)%nat with (reads w + S i)%nat by lia.
    apply (Hres (S i)). lia.
Qed.

(** C4: in a run of ticks whose first [k] results are not past and whose
    next [m >= 1] results are past, started from an element that is not
    past, nothing is emitted during the first [k] ticks, the tick that
    computes the first past result emits one "sessionexpired" notification
    with payload [true], and that notification stays the only one after
    each of the later ticks. *)
Theorem C4_expired_once (w : World) (d : Date) (k m : nat) :
  _end (this w) = Some d ->
  this_isPast (this w) = false ->
  (forall i, (i < k)%nat -> isPast (tickResult w i d) = false) ->
  (forall i, (k <= i < k + m)%nat -> isPast (tickResult w i d) = true) ->
  dispatched (exec_n updateStrings k w) = dispatched w /\
  forall j, (1 <= j <= m)%nat ->
    dispatched (exec_n updateStrings (k + j) w)
    = dispatched w ++ [sessionexpired_event].
Proof.
  intros He Hp Hbefore Hafter.
  destruct (ticks_before_expiry k w d He Hp Hbefore) as (I1 & I2 & I3 & I4).
  split; [exact I1|].
  intros j Hj. destruct j as [|j]; [lia|].
  rewrite exec_n_add. cbn [exec_n].
  set (wk := exec_n updateStrings k w) in *.
  destruct (updateStrings_step wk d I3)
    as (Hd & Hp' & He' & Hc & Hr & Hb & Ha & Hs & Hen).
  assert (H0 : isPast (tickResult wk 0 d) = true).
  { rewrite I4. apply Hafter. lia. }
  rewrite H0, I2 in Hd. cbn [negb andb] in Hd.
  rewrite (ticks_after_expiry j (exec updateStrings wk) d He').
  - rewrite Hd, I1. reflexivity.
  - rewrite Hp'. exact H0.
  - intros i Hi. unfold tickResult.
    rewrite Hc, Hr, Hb, Ha, Hs, Hen.
    replace (S (reads wk) + i)%nat with (reads wk + S i)%nat by lia.
    change (isPast (tickResult wk (S i) d) = true).
    rewrite I4. apply Hafter. lia.
Qed.

Lemma C4_expired_once_witness :
  dispatched
    (exec_n updateStrings 5 (hostAt 1000000000000 1000 (endingAt 1000000002500)))
  = [sessionexpired_event].
Proof.
  apply (C4_expired_once (hostAt 1000000000000 1000 (endingAt 1000000002500))
           (mkDate (Num 1000000002500)) 3 2).
  - reflexivity.
  - reflexivity.
  - intros i Hi.
    destruct i as [|[|[|i]]]; [reflexivity|reflexivity|reflexivity|lia].
  - intros i Hi.
    destruct i as [|[|[|[|[|i]]]]]; try lia; reflexivity.
  - lia.
Defined.

(** A tick schedules the next one when the result is valid and below eight
    hours: a fresh timer with the result's delay, kept in [_timeout]. *)
Lemma updateStrings_schedules (w : World) (d : Date) :
  _end (this w) = Some d ->
  let tmp := tickResult w 0 d in
  invalid tmp = false -> diff tmp < 28800 ->
  let w' := exec updateStrings w in
  nextTimer w' = S (nextTimer w) /\
  _timeout (this w') = Some (nextTimer w) /\
  In (nextTimer w, timeout tmp) (timers w').
Proof.
  intros He tmp Hinv Hlt w'. subst w'.
  unfold exec, updateStrings, bind, get_this, clearTimeout, Date_now.
  cbn [fst snd this reads clock]. rewrite He.
  assert (Ht : getDurationData (clock w (reads w)) (valueOf d)
                 (this_before (this w)) (this_after (this w))
                 (this_start (this w)) (this_end (this w)) = tmp).
  { unfold tmp, tickResult. rewrite Nat.add_0_r. reflexivity. }
  rewrite Ht, Hinv.
  assert (Hb : (diff tmp <? 28800) = true) by (apply Z.ltb_lt; exact Hlt).
  rewrite Hb.
  destruct (negb (this_isPast (this w)) && isPast tmp);
    cbn; repeat split; apply in_or_app; right; left; reflexivity.
Qed.

(** C10: a tick whose result is valid with 28800 seconds or more, past or
    not, schedules nothing: no timer handle is allocated, the timers left
    pending are those that were, less the one [_timeout] named, which is
    cleared, and [_timeout] is not assigned. *)
Theorem C10_freeze_both_directions (w : World) (d : Date) :
  _end (this w) = Some d ->
  let tmp := tickResult w 0 d in
  invalid tmp = false -> 28800 <= diff tmp ->
  let w' := exec updateStrings w in
  nextTimer w' = nextTimer w /\
  _timeout (this w') = _timeout (this w) /\
  timers w' = timers (exec (clearTimeout (_timeout (this w))) w) /\
  (forall t, In t (timers w') -> In t (timers w)).
Proof.
  intros He tmp Hinv Hge w'. subst w'.
  unfold exec, updateStrings, bind, get_this, clearTimeout, Date_now.
  cbn [fst snd this reads clock]. rewrite He.
  assert (Ht : getDurationData (clock w (reads w)) (valueOf d)
                 (this_before (this w)) (this_after (this w))
                 (this_start (this w)) (this_end (this w)) = tmp).
  { unfold tmp, tickResult. rewrite Nat.add_0_r. reflexivity. }
  rewrite Ht, Hinv.
  assert (Hb : (diff tmp <? 28800) = false) by (apply Z.ltb_ge; exact Hge).
  rewrite Hb.
  assert (Hsub : forall t,
             In t (match _timeout (this w) with
                   | None => timers w
                   | Some id =>
                       filter (fun t => negb (Nat.eqb (fst t) id)) (timers w)
                   end) -> In t (timers w)).
  { intros t Hin. destruct (_timeout (this w)); [|exact Hin].
    apply filter_In in Hin. apply Hin. }
  destruct (negb (this_isPast (this w)) && isPast tmp);
    cbn; (split; [reflexivity|split; [reflexivity|split; [reflexivity|]]]);
    exact Hsub.
Qed.

Lemma C10_freeze_both_directions_witness :
  let w := hostAt 1000000000000 1000 (endingAt 1000032400000) in
  isPast (tickResult w 0 (mkDate (Num 1000032400000))) = false /\
  nextTimer (exec updateStrings w) = nextTimer w.
Proof.
  split; [reflexivity|].
  apply (C10_freeze_both_directions
           (hostAt 1000000000000 1000 (endingAt 1000032400000))
           (mkDate (Num 1000032400000))).
  - reflexivity.
  - reflexivity.
  - vm_compute. discriminate.
Defined.

(** The same nine hours after the end date. *)
Example freeze_when_long_expired :
  let w := hostAt 1000032400000 1000 (endingAt 1000000000000) in
  isPast (tickResult w 0 (mkDate (Num 1000000000000))) = true /\
  timers (exec updateStrings w) = [] /\
  dispatched (exec updateStrings w) = [sessionexpired_event].
Proof. vm_compute. repeat split. Qed.

(** And one hour ahead the next tick is scheduled. *)
Example schedule_when_near :
  timers (exec updateStrings
            (hostAt 1000000000000 1000 (endingAt 1000003600000)))
  = [(0%nat, 1000)].
Proof. vm_compute. reflexivity. Qed.

(** ** Keepalive *)








(** Above the floor the listeners registered are still only the two reset
    listeners: [updateKeepAlive] is called while registering, which emits a
    keepalive then, and events reaching [window] later emit none. *)
Example setListeners_above_floor :
  let w := exec setListeners (hostAt 1000000000000 100 (keptAlive 90 None)) in
  windowListeners w
    = [("setsessionend", L_setSessionEnd); ("resetsession", L_resetEnd)] /\
  dispatched w = [keepalive_event] /\ reads w = 5%nat.
Proof. vm_compute. repeat split. Qed.

(** Assigning a function to the [keepaliveCallback] property configures it
    as the custom handler. *)
Lemma keepaliveCallback_setter_function (f : jsfun) (w : World) :
  _keepaliveCallback (this (exec (set_keepaliveCallback_prop (JFunction f)) w))
  = Some f.
Proof. reflexivity. Qed.

(** A keepalive emission with a custom handler configured, whatever the
    handler would do: the read of [this.keepaliveCallback] gives
    [undefined], the call throws, the handler is dropped and the default
    notification is sent; the handler's body has not run. *)
Lemma updateKeepAlive_custom_handler (w : World) (h : jsfun) :
  _keepaliveCallback (this w) = Some h ->
  clock w (reads w) - _lastKeep (this w) > keepalive (this w) * 1000 ->
  let w1 := exec updateKeepAlive w in
  _keepaliveCallback (this w1) = None /\
  dispatched w1 = dispatched w ++ [keepalive_event] /\
  callbackCalls w1 = callbackCalls w /\
  _lastKeep (this w1) = clock w (reads w) /\
  console w1 =
    console w ++
      [(Error,
        ("<session-timeout> caught error when calling keepaliveCallback(): "
           ++ "this.keepaliveCallback is not a function")%string)].
Proof.
  intros Hc Hgt w1. subst w1.
  unfold exec, updateKeepAlive, bind, get_this, modify_this, Date_now.
  cbn [fst snd this with_this set_lastInteraction _lastInteraction _lastKeep
       keepalive _keepalive _keepaliveCallback].
  unfold keepalive in Hgt.
  assert (Hb : (clock w (reads w) - _lastKeep (this w)
                >? _keepalive (this w) * 1000) = true)
    by (apply Z.gtb_lt; lia).
  rewrite Hb, Hc. cbn. repeat split.
Qed.

(** On the default path: with no custom handler, each call of
    [updateKeepAlive] emits the default notification or nothing, and the
    handler stays [null]. *)
Lemma updateKeepAlive_default_path (n : nat) :
  forall w : World,
    _keepaliveCallback (this w) = None ->
    let w' := exec_n updateKeepAlive n w in
    _keepaliveCallback (this w') = None /\
    callbackCalls w' = callbackCalls w /\
    console w' = console w /\
    exists k, dispatched w' = dispatched w ++ repeat keepalive_event k.
Proof.
  induction n as [|n IH]; intros w Hc.
  - cbn. repeat split; try assumption. exists 0%nat. cbn.
    rewrite app_nil_r. reflexivity.
  - cbn [exec_n].
    assert (Hstep :
      let w1 := exec updateKeepAlive w in
      _keepaliveCallback (this w1) = None /\
      callbackCalls w1 = callbackCalls w /\
      console w1 = console w /\
      exists k, dispatched w1 = dispatched w ++ repeat keepalive_event k).
    { unfold exec, updateKeepAlive, bind, get_this, modify_this, Date_now.
      cbn [fst snd this with_this set_lastInteraction _lastInteraction
           _lastKeep keepalive _keepalive _keepaliveCallback].
      destruct (clock w (reads w) - _lastKeep (this w)
                >? _keepalive (this w) * 1000).
      - rewrite Hc. cbn. repeat split; try assumption.
        exists 1%nat. reflexivity.
      - cbn. repeat split; try assumption.
        exists 0%nat. cbn. rewrite app_nil_r. reflexivity. }
    destruct Hstep as (S1 & S2 & S3 & k1 & S4).
    destruct (IH (exec updateKeepAlive w) S1) as (I1 & I2 & I3 & k2 & I4).
    repeat split; try congruence.
    exists (k1 + k2)%nat.
    rewrite I4, S4, <- app_assoc, repeat_app. reflexivity.
Qed.

(** *** Nothing brings a dropped handler back *)

Lemma on_default_path_refl (w : World) : on_default_path w w.
Proof.
  repeat split; [auto|]. exists []. rewrite app_nil_r. split; constructor.
Qed.

Lemma on_default_path_trans (w1 w2 w3 : World) :
  on_default_path w1 w2 -> on_default_path w2 w3 -> on_default_path w1 w3.
Proof.
  intros (A1 & A2 & l1 & A3 & A4) (B1 & B2 & l2 & B3 & B4).
  repeat split; [auto|congruence|].
  exists (l1 ++ l2). split.
  - rewrite B3, A3, app_assoc. reflexivity.
  - apply Forall_app. split; assumption.
Qed.

Lemma stays_default_bind {A B} (m : M A) (k : A -> M B) :
  stays_default m -> (forall a, stays_default (k a)) ->
  stays_default (bind m k).
Proof.
  intros Hm Hk w. specialize (Hm w). unfold exec, bind in *.
  destruct (m w) as [[a|msg] w1]; cbn [snd] in *; [|exact Hm].
  eapply on_default_path_trans; [exact Hm|apply Hk].
Qed.

Lemma stays_default_try_catch {A} (m : M A) (h : string -> M A) :
  stays_default m -> (forall msg, stays_default (h msg)) ->
  stays_default (try_catch m h).
Proof.
  intros Hm Hh w. specialize (Hm w). unfold exec, try_catch in *.
  destruct (m w) as [[a|msg] w1]; cbn [snd] in *; [exact Hm|].
  eapply on_default_path_trans; [exact Hm|apply Hh].
Qed.

Lemma stays_default_ret {A} (a : A) : stays_default (ret a).
Proof. intros w. apply on_default_path_refl. Qed.

Lemma stays_default_throw {A} (msg : string) : stays_default (@throw A msg).
Proof. intros w. apply on_default_path_refl. Qed.

Lemma stays_default_get_this : stays_default get_this.
Proof. intros w. apply on_default_path_refl. Qed.

Ltac same_dispatched :=
  intros w; unfold exec; cbn;
  repeat split; [auto | exists []; rewrite app_nil_r; split; constructor].

Lemma stays_default_Date_now : stays_default Date_now.
Proof. same_dispatched. Qed.

Lemma stays_default_console_log (l : LogLevel) (msg : string) :
  stays_default (console_log l msg).
Proof. same_dispatched. Qed.

Lemma stays_default_clearTimeout (h : option nat) :
  stays_default (clearTimeout h).
Proof. same_dispatched. Qed.

Lemma stays_default_setTimeout (delay : Z) : stays_default (setTimeout delay).
Proof. same_dispatched. Qed.

Lemma stays_default_addEventListener (type : string) (cb : option Listener) :
  stays_default (addEventListener type cb).
Proof. same_dispatched. Qed.

Lemma stays_default_call_undefined (name : string) :
  stays_default (call_value name JUndefined).
Proof. intros w. apply on_default_path_refl. Qed.

Lemma stays_default_emitEvent (event : string) :
  event = "keepalive" \/ event = "sessionexpired" ->
  forall detail_, detail_ = None \/ detail_ = Some true ->
  stays_default (emitEvent event detail_).
Proof.
  intros He detail_ Hd w. unfold exec, emitEvent, dispatchEvent. cbn.
  repeat split; [auto|]. eexists. split; [reflexivity|].
  constructor; [|constructor].
  destruct He as [-> | ->]; destruct Hd as [-> | ->];
    (left; reflexivity) || (right; reflexivity).
Qed.

Lemma stays_default_modify_this (f : SessionTimeout -> SessionTimeout) :
  (forall e, _keepaliveCallback e = None -> _keepaliveCallback (f e) = None) ->
  stays_default (modify_this f).
Proof.
  intros Hf w. unfold exec, modify_this. cbn [snd with_this this dispatched callbackCalls].
  split; [apply Hf|]. split; [reflexivity|].
  exists []. rewrite app_nil_r. split; constructor.
Qed.

Create HintDb default_path.
#[local] Hint Resolve stays_default_ret stays_default_throw
  stays_default_get_this stays_default_Date_now stays_default_console_log
  stays_default_clearTimeout stays_default_setTimeout
  stays_default_addEventListener stays_default_call_undefined
  : default_path.

(** Breaks a method into its binds, its branches and its primitives. *)
Ltac default_path :=
  repeat first
    [ progress auto with default_path
    | apply stays_default_bind; [|intros ?]
    | apply stays_default_try_catch; [|intros ?]
    | apply stays_default_emitEvent; [auto|auto]
    | apply stays_default_modify_this; intros ? ?;
      first [assumption | reflexivity]
    | match goal with
      | |- stays_default (if ?b then _ else _) => destruct b
      | |- stays_default (match ?x with _ => _ end) => destruct x
      end ].

Lemma stays_default_new_Date : stays_default new_Date.
Proof. unfold new_Date. default_path. Qed.

Lemma stays_default_setEndInner (d : Date) : stays_default (setEndInner d).
Proof. unfold setEndInner. default_path. Qed.

Lemma stays_default_setEnd (v : jsval) : stays_default (setEnd v).
Proof.
  pose proof stays_default_new_Date. pose proof stays_default_setEndInner.
  unfold setEnd. default_path.
Qed.

Lemma stays_default_setSessionEnd (ev : Event) : stays_default (setSessionEnd ev).
Proof.
  pose proof stays_default_setEnd. unfold setSessionEnd. default_path.
Qed.

Lemma stays_default_resetEnd : stays_default resetEnd.
Proof.
  pose proof stays_default_setEndInner. unfold resetEnd. default_path.
Qed.

Lemma stays_default_updateStrings : stays_default updateStrings.
Proof. unfold updateStrings. default_path. Qed.

Lemma stays_default_updateKeepAlive : stays_default updateKeepAlive.
Proof. unfold updateKeepAlive, keepaliveCallback. default_path. Qed.

Lemma stays_default_addKeepAliveListeners (l : list string) :
  stays_default (addKeepAliveListeners l).
Proof.
  pose proof stays_default_updateKeepAlive.
  induction l as [|event l IH]; cbn [addKeepAliveListeners]; default_path.
Qed.

Lemma stays_default_setListeners : stays_default setListeners.
Proof.
  pose proof stays_default_addKeepAliveListeners.
  unfold setListeners. default_path.
Qed.

Lemma stays_default_runListener (l : Listener) (ev : Event) :
  stays_default (runListener l ev).
Proof. unfold runListener. default_path. Qed.

Lemma stays_default_deliver (ls : list (string * Listener)) (ev : Event) :
  stays_default (deliver ls ev).
Proof.
  pose proof stays_default_runListener.
  induction ls as [|[type l] ls IH]; cbn [deliver]; default_path.
Qed.

Lemma stays_default_call (c : Call) : stays_default (call c).
Proof.
  destruct c; cbn [call].
  - apply stays_default_updateStrings.
  - apply stays_default_updateKeepAlive.
  - apply stays_default_setEnd.
  - apply stays_default_setSessionEnd.
  - apply stays_default_resetEnd.
  - apply stays_default_setListeners.
  - intros w. unfold windowDispatch, exec.
    apply (stays_default_deliver (windowListeners w) event w).
Qed.

Lemma run_on_default_path (cs : list Call) :
  forall w, on_default_path w (run cs w).
Proof.
  induction cs as [|c cs IH]; intros w; [apply on_default_path_refl|].
  cbn [run]. eapply on_default_path_trans; [apply stays_default_call|apply IH].
Qed.

(** C9: a keepalive emission with a custom handler configured that raises
    an error resets the handler to [null], reports the error and still
    dispatches the default "keepalive" notification, payload [true], in that
    call; through every later run of the controller (timers firing, methods
    called, events reaching [window]) the handler stays [null], no handler
    body runs, and what is dispatched are default notifications. *)
Theorem C9_failing_handler_disabled (w : World) (h : jsfun) (msg : string) :
  _keepaliveCallback (this w) = Some h ->
  fun_call h = Throws msg ->
  clock w (reads w) - _lastKeep (this w) > keepalive (this w) * 1000 ->
  let w1 := exec updateKeepAlive w in
  _keepaliveCallback (this w1) = None /\
  dispatched w1 = dispatched w ++ [keepalive_event] /\
  (exists report, console w1 = console w ++ [(Error, report)]) /\
  forall cs : list Call,
    let w2 := run cs w1 in
    _keepaliveCallback (this w2) = None /\
    callbackCalls w2 = callbackCalls w1 /\
    exists l, dispatched w2 = dispatched w1 ++ l /\ Forall default_event l.
Proof.
  intros Hc _ Hgt w1.
  destruct (updateKeepAlive_custom_handler w h Hc Hgt) as (A1 & A2 & _ & _ & A5).
  fold w1 in A1, A2, A5.
  split; [exact A1|]. split; [exact A2|].
  split; [eexists; exact A5|].
  intros cs w2.
  destruct (run_on_default_path cs w1) as (B1 & B2 & B3).
  split; [exact (B1 A1)|]. split; [exact B2|exact B3].
Qed.

Lemma C9_failing_handler_disabled_witness :
  let w := hostAt 1000000000000 100000
             (keptAlive 90 (Some {| fun_call := Throws "offline" |})) in
  dispatched (exec updateKeepAlive w) = [keepalive_event] /\
  _keepaliveCallback
    (this (run [CallUpdateKeepAlive; CallTick; CallUpdateKeepAlive]
             (exec updateKeepAlive w)))
  = None.
Proof.
  intros w.
  destruct (C9_failing_handler_disabled w {| fun_call := Throws "offline" |}
              "offline" eq_refl eq_refl) as (_ & H2 & _ & H4).
  - vm_compute. reflexivity.
  - split; [exact H2|].
    destruct (H4 [CallUpdateKeepAlive; CallTick; CallUpdateKeepAlive])
      as [H _]. exact H.
Defined.

(** ** Absolute reset *)

(** [setEnd] does not look at the text of its argument beyond its being
    blank or not. *)
Lemma setEnd_any_text (s1 s2 : string) (w : World) :
  String.eqb (trim s1) "" = false -> String.eqb (trim s2) "" = false ->
  setEnd (JString s1) w = setEnd (JString s2) w.
Proof. intros H1 H2. unfold setEnd. rewrite H1, H2. reflexivity. Qed.

(** C5, at the request [setEnd("2030-01-01T00:00:00Z")], whose instant is
    1893456000000, made at time 1700000000000: when the clock does not move
    during the call the end date becomes the time of the call, with no
    warning; when the clock moves by a millisecond the request is refused
    with the warning, and the end date stays what it was. *)
Theorem C5_setEnd_at_2030 :
  let request := setEnd (JString "2030-01-01T00:00:00Z") in
  let still := exec request (hostAt 1700000000000 0 constructed) in
  let moving := exec request (hostAt 1700000000000 1 constructed) in
  _end (this still) = Some (mkDate (Num 1700000000000)) /\
  _end (this still) <> Some (mkDate (Num 1893456000000)) /\
  console still = [] /\
  _end (this moving) = None /\
  console moving =
    [(Warn, "<session-timeout> expects new end date-time to be later than now")].
Proof.
  vm_compute. repeat split. discriminate.
Qed.

(** * Further properties of the duration calculator *)

(** Ahead of the target, or at it, the result is not past and its seconds
    are the whole seconds left. *)
Theorem future_seconds (now target : Z) (b a s e : string) :
  now <= target ->
  let r := getDurationData now (Num target) b a s e in
  isPast r = false /\ diff r = (target - now) / 1000.
Proof.
  intros Hle r.
  destruct (diff_past_or_future now target b a s e) as [Hp Hd].
  fold r in Hp, Hd.
  pose proof (Z.div_pos (target - now) 1000 ltac:(lia) ltac:(lia)) as Hq.
  rewrite Hp, Hd. split; lia.
Qed.

Lemma future_seconds_witness :
  diff (getDurationData 1000 (Num 4999) "expires" "expired" "in" "ago") = 3.
Proof.
  destruct (future_seconds 1000 4999 "expires" "expired" "in" "ago"
              ltac:(lia)) as [_ H].
  rewrite H. reflexivity.
Defined.

Lemma append_space_not_now (x y : string) :
  (x ++ " " ++ y)%string <> "now".
Proof.
  destruct x as [|c1 [|c2 [|c3 [|c4 x]]]]; cbn; intros H; congruence.
Qed.

(** The text is "now" exactly during the last second before the target,
    [0 <= target - now < 1000]; the result is then not past, has zero
    seconds and no start word. *)
Theorem now_text_iff (now target : Z) (b a s e : string) :
  let r := getDurationData now (Num target) b a s e in
  (dynamicDuration r = "now" <-> 0 <= target - now < 1000) /\
  (dynamicDuration r = "now" ->
   diff r = 0 /\ isPast r = false /\ startWord r = "" /\ endWord r = "").
Proof.
  intros r.
  destruct (diff_past_or_future now target b a s e) as [Hp Hd].
  fold r in Hp, Hd.
  pose proof (Z.div_mod (target - now) 1000 ltac:(lia)) as E.
  pose proof (Z.mod_pos_bound (target - now) 1000 ltac:(lia)) as B.
  assert (Htext : dynamicDuration r = "now" <-> diff r = 0).
  { unfold r. cbn [getDurationData dynamicDuration diff].
    set (d := if signedDiff now target <? 0
              then signedDiff now target * -1 else signedDiff now target).
    destruct (d =? 0) eqn:E0.
    - apply Z.eqb_eq in E0. split; intros _; [exact E0|reflexivity].
    - apply Z.eqb_neq in E0. split; intros H; [|contradiction].
      exfalso. revert H.
      apply append_space_not_now. }
  assert (Hzero : diff r = 0 <-> 0 <= target - now < 1000).
  { rewrite Hd. split; intros H; lia. }
  split; [rewrite Htext; exact Hzero|].
  intros Hn. apply Htext in Hn.
  assert (Hnp : isPast r = false) by (rewrite Hp; lia).
  split; [exact Hn|]. split; [exact Hnp|].
  unfold r in *. cbn [getDurationData startWord endWord diff isPast] in *.
  rewrite Hnp. split; [|reflexivity].
  rewrite Hnp in Hn. rewrite Hn. reflexivity.
Qed.

(** The unit and value of the code are those of [displayed]. *)
Lemma bestUnit_displayed (d : Z) (past : bool) :
  (lv_unit (bestUnit d past), Math_floor (lv_humanVal (bestUnit d past)))
  = displayed d.
Proof.
  unfold displayed. rewrite bestUnit_firstExceeded.
  destruct (firstExceeded d) as [[m u]|] eqn:E; cbn [lv_unit lv_humanVal].
  - apply firstExceeded_some in E. destruct E as (Hm & _ & _).
    rewrite Math_floor_js_div by lia. reflexivity.
  - rewrite Math_floor_inject_Z. reflexivity.
Qed.

Ltac div_bounds d c :=
  pose proof (Z.div_mod d c ltac:(lia));
  pose proof (Z.mod_pos_bound d c ltac:(lia)).

Ltac unit_case d c :=
  let E := fresh "E" in
  destruct (d >? c) eqn:E;
  [ apply Z.gtb_lt in E; try div_bounds d c
  | assert (d <= c)
      by (destruct (Z.gtb_spec d c); [discriminate E|lia]);
    clear E ].

(** Which unit is shown, by the seconds [d] of the result: because a
    threshold must be strictly exceeded, a unit is shown up to and
    including the next threshold.  Up to 60 seconds the unit is "second"
    and the value [d] (so 60 shows as 60 seconds, not 1 minute); above 60
    and up to 3600 it is "minute" with value [d / 60], from 1 to 60; above
    3600 and up to 86400 "hour", from 1 to 24; above 86400 and up to 604800
    "day", from 1 to 7; above 604800 and up to 2629800 "week", from 1 to 4;
    above 2629800 and up to 31557600 "month", from 1 to 12; above 31557600
    "year", 1 or more. *)
Theorem shown_value_range (now target : Z) (b a s e : string) :
  let r := getDurationData now (Num target) b a s e in
  let v := bestUnit (diff r) (isPast r) in
  let value := Math_floor (lv_humanVal v) in
  let d := diff r in
  0 <= d /\
  (d <= 60 -> lv_unit v = "second" /\ value = d) /\
  (60 < d <= 3600 ->
   lv_unit v = "minute" /\ value = d / 60 /\ 1 <= value <= 60) /\
  (3600 < d <= 86400 ->
   lv_unit v = "hour" /\ value = d / 3600 /\ 1 <= value <= 24) /\
  (86400 < d <= 604800 ->
   lv_unit v = "day" /\ value = d / 86400 /\ 1 <= value <= 7) /\
  (604800 < d <= 2629800 ->
   lv_unit v = "week" /\ value = d / 604800 /\ 1 <= value <= 4) /\
  (2629800 < d <= 31557600 ->
   lv_unit v = "month" /\ value = d / 2629800 /\ 1 <= value <= 12) /\
  (31557600 < d ->
   lv_unit v = "year" /\ value = d / 31557600 /\ 1 <= value).
Proof.
  intros r v value d.
  pose proof (diff_nonneg b a s e now target) as Hd. fold r in Hd. fold d in Hd.
  pose proof (bestUnit_displayed (diff r) (isPast r)) as H.
  fold v in H. fold value in H. fold d in H.
  rewrite (surjective_pairing (displayed d)) in H.
  apply pair_equal_spec in H. destruct H as [Hu Hv].
  rewrite Hu, Hv. clear Hu Hv. clearbody d. clear r v value.
  split; [exact Hd|].
  unfold displayed, firstExceeded, thresholds. cbn [find fst].
  unit_case d 31557600;
    [|unit_case d 2629800;
      [|unit_case d 604800;
        [|unit_case d 86400;
          [|unit_case d 3600;
            [|unit_case d 60]]]]];
    cbn [fst snd];
    repeat split; intros; first [reflexivity | lia].
Qed.

Lemma shown_value_range_witness :
  let r := getDurationData 0 (Num 60000) "expires" "expired" "in" "ago" in
  let v := bestUnit (diff r) (isPast r) in
  lv_unit v = "second" /\ Math_floor (lv_humanVal v) = 60.
Proof.
  destruct (shown_value_range 0 60000 "expires" "expired" "in" "ago")
    as (_ & H & _).
  destruct (H ltac:(vm_compute; discriminate)) as [H1 H2].
  split; [exact H1|]. rewrite H2. reflexivity.
Defined.

(** Sixty seconds, an hour and a day, each still in the smaller unit. *)
Example at_the_thresholds :
  dynamicDuration (getDurationData 0 (Num 60000) "" "" "" "") = "60 seconds" /\
  dynamicDuration (getDurationData 0 (Num 3600000) "" "" "" "") = "60 minutes" /\
  dynamicDuration (getDurationData 0 (Num 86400000) "" "" "" "") = "24 hours" /\
  dynamicDuration (getDurationData 0 (Num 61000) "" "" "" "") = "1 minute".
Proof. vm_compute. repeat split. Qed.

(** A later reading by a whole number of seconds lowers the signed seconds
    by that number. *)
Lemma signedDiff_later (now target k : Z) :
  signedDiff (now + 1000 * k) target = signedDiff now target - k.
Proof.
  rewrite !signedDiff_div.
  replace (target - (now + 1000 * k)) with (target - now + (- k) * 1000) by lia.
  rewrite Z.div_add by lia. lia.
Qed.

(** The reschedule seconds never exceed the seconds left. *)
Lemma rescheduleSeconds_le (d : Z) :
  1 <= d -> 1 <= rescheduleSeconds d false <= d.
Proof.
  intros Hd. unfold rescheduleSeconds.
  destruct (negb false && negb (d =? 0)
            && (Z.rem (lv_next (bestUnit d false)) 60 =? 0)); [lia|].
  destruct (firstExceeded d) as [[m u]|] eqn:E.
  - destruct (lv_next_selected d m u false ltac:(lia) E) as [Hn Hpos].
    rewrite Hn. split; [exact Hpos|].
    apply firstExceeded_some in E. destruct E as (Hm & Hlt & _).
    unfold chosenSeconds.
    pose proof (Z.mod_pos_bound d m ltac:(lia)).
    destruct (negb false && (d mod m >? 0)); lia.
  - rewrite bestUnit_firstExceeded, E. cbn [lv_next]. lia.
Qed.

(** The result recomputed one delay after a result that is not past. *)
Lemma recomputed_after_delay (now target : Z) (b a s e : string) :
  let r := getDurationData now (Num target) b a s e in
  let r' := getDurationData (now + timeout r) (Num target) b a s e in
  isPast r = false ->
  timeout r = rescheduleSeconds (diff r) false * 1000 /\
  isPast r' = (diff r - rescheduleSeconds (diff r) false <? 0) /\
  diff r' = Z.abs (diff r - rescheduleSeconds (diff r) false).
Proof.
  intros r r' Hp.
  assert (Ht : timeout r = rescheduleSeconds (diff r) (isPast r) * 1000)
    by reflexivity.
  assert (Hs : signedDiff now target = diff r).
  { unfold r in Hp |- *. cbn [getDurationData diff isPast] in *.
    rewrite Hp. reflexivity. }
  assert (Hs' : signedDiff (now + timeout r) target
                = diff r - rescheduleSeconds (diff r) (isPast r)).
  { rewrite Ht, Z.mul_comm, signedDiff_later, Hs. reflexivity. }
  rewrite Hp in Ht, Hs'. split; [exact Ht|].
  rewrite <- Hs'. unfold r'. cbn [getDurationData diff isPast].
  destruct (signedDiff (now + timeout r) target <? 0) eqn:E;
    split; try reflexivity; lia.
Qed.

(** The countdown never sleeps through the expiry: a result that is not
    past with at least one second left, recomputed exactly its delay later,
    is still not past, with its seconds lowered by the delay; from zero
    seconds the recomputation one delay later is the first past one. *)
Theorem next_tick_not_overshooting (now target : Z) (b a s e : string) :
  let r := getDurationData now (Num target) b a s e in
  let r' := getDurationData (now + timeout r) (Num target) b a s e in
  isPast r = false ->
  (1 <= diff r ->
   timeout r <= diff r * 1000 /\ isPast r' = false /\
   diff r' = diff r - timeout r / 1000) /\
  (diff r = 0 -> timeout r = 1000 /\ isPast r' = true /\ diff r' = 1).
Proof.
  intros r r' Hp.
  destruct (recomputed_after_delay now target b a s e Hp) as (Ht & Hp' & Hd').
  fold r in Ht, Hp', Hd'. fold r' in Hp', Hd'.
  split.
  - intros Hd. pose proof (rescheduleSeconds_le (diff r) Hd) as Hle.
    rewrite Ht, Z.div_mul by lia. rewrite Hp', Hd'. repeat split; lia.
  - intros H0. rewrite H0 in *.
    assert (Hone : rescheduleSeconds 0 false = 1) by reflexivity.
    rewrite Hone in *. rewrite Ht, Hp', Hd'. repeat split.
Qed.

Lemma next_tick_not_overshooting_witness :
  let r := getDurationData 0 (Num 3661000) "expires" "expired" "in" "ago" in
  let r' := getDurationData 61000 (Num 3661000) "expires" "expired" "in" "ago" in
  isPast r = false /\ diff r' = diff r - 61.
Proof.
  split; [reflexivity|].
  destruct (next_tick_not_overshooting 0 3661000 "expires" "expired" "in" "ago"
              eq_refl) as [H _].
  destruct (H ltac:(vm_compute; discriminate)) as (_ & _ & H3).
  exact H3.
Defined.

(** Snapping to the unit boundary: ahead of the target, when a threshold
    [m] is selected and the remainder of the seconds is positive and not a
    multiple of 60, the recomputation one delay later finds a whole number
    of units left. *)
Theorem next_tick_on_boundary (now target m : Z) (u b a s e : string) :
  let r := getDurationData now (Num target) b a s e in
  let r' := getDurationData (now + timeout r) (Num target) b a s e in
  isPast r = false ->
  firstExceeded (diff r) = Some (m, u) ->
  0 < diff r mod m -> (diff r mod m) mod 60 <> 0 ->
  timeout r = (diff r mod m) * 1000 /\ diff r' = m * (diff r / m).
Proof.
  intros r r' Hp Hsel Hpos Hn60.
  pose proof (diff_nonneg b a s e now target) as Hd. fold r in Hd.
  pose proof (firstExceeded_some _ _ _ Hsel) as (Hm & Hlt & _).
  destruct (lv_next_selected (diff r) m u false Hd Hsel) as [Hn _].
  assert (Hc : chosenSeconds (diff r) false m = diff r mod m).
  { unfold chosenSeconds. cbn [negb andb].
    destruct (diff r mod m >? 0) eqn:E; [reflexivity|lia]. }
  assert (Hrs : rescheduleSeconds (diff r) false = diff r mod m).
  { unfold rescheduleSeconds. rewrite Hn, Hc.
    pose proof (Z.mod_pos_bound (diff r) m ltac:(lia)).
    rewrite Z.rem_mod_nonneg by lia.
    destruct (diff r mod m mod 60 =? 0) eqn:E; [apply Z.eqb_eq in E; lia|].
    rewrite andb_false_r. reflexivity. }
  assert (Ht : timeout r = (diff r mod m) * 1000).
  { change (timeout r) with (rescheduleSeconds (diff r) (isPast r) * 1000).
    rewrite Hp, Hrs. reflexivity. }
  split; [exact Ht|].
  destruct (recomputed_after_delay now target b a s e Hp) as (_ & _ & Hd').
  fold r in Hd'. fold r' in Hd'. rewrite Hd', Hrs.
  pose proof (Z.div_mod (diff r) m ltac:(lia)).
  pose proof (Z.mod_pos_bound (diff r) m ltac:(lia)). lia.
Qed.

Lemma next_tick_on_boundary_witness :
  diff (getDurationData 61000 (Num 3661000) "expires" "expired" "in" "ago")
  = 3600 * (3661 / 3600).
Proof.
  destruct (next_tick_on_boundary 0 3661000 3600 "hour"
              "expires" "expired" "in" "ago" eq_refl eq_refl)
    as [_ H].
  - vm_compute. reflexivity.
  - vm_compute. discriminate.
  - exact H.
Defined.

(** * Further properties of the timeout controller *)

Lemma keeps_bind {A B C} (g : World -> C) (m : M A) (k : A -> M B) :
  keeps g m -> (forall a, keeps g (k a)) -> keeps g (bind m k).
Proof.
  intros Hm Hk w. specialize (Hm w). unfold exec, bind in *.
  destruct (m w) as [[a|msg] w1]; cbn [snd] in *; [|exact Hm].
  rewrite <- Hm. apply Hk.
Qed.

Lemma keeps_try_catch {A C} (g : World -> C) (m : M A) (h : string -> M A) :
  keeps g m -> (forall msg, keeps g (h msg)) -> keeps g (try_catch m h).
Proof.
  intros Hm Hh w. specialize (Hm w). unfold exec, try_catch in *.
  destruct (m w) as [[a|msg] w1]; cbn [snd] in *; [exact Hm|].
  rewrite <- Hm. apply Hh.
Qed.

(** Breaks a method into binds, branches and primitives that leave the
    observation alone by computation. *)
Ltac keeps_tac :=
  repeat first
    [ solve [eauto]
    | apply keeps_bind; [|intros ?]
    | apply keeps_try_catch; [|intros ?]
    | match goal with
      | |- keeps _ (if ?b then _ else _) => destruct b
      | |- keeps _ (match ?x with _ => _ end) => destruct x
      end
    | (intros ?; reflexivity) ].

Section KeptByTheOtherMethods.

(** Any observation that a change of the clock count, the console, the
    listeners, the dispatched events and the fields written outside a tick
    cannot reach. *)
Variable C : Type.
Variable g : World -> C.
Hypothesis g_Date_now : keeps g Date_now.
Hypothesis g_console : forall l msg, keeps g (console_log l msg).
Hypothesis g_dispatch : forall e, keeps g (dispatchEvent e).
Hypothesis g_listen : forall t cb, keeps g (addEventListener t cb).
Hypothesis g_end : forall d, keeps g (modify_this (set_end d)).
Hypothesis g_lastInteraction :
  forall t, keeps g (modify_this (set_lastInteraction t)).
Hypothesis g_lastKeep : forall t, keeps g (modify_this (set_lastKeep t)).
Hypothesis g_callback :
  forall c, keeps g (modify_this (set_keepaliveCallback c)).

Lemma keeps_setEndInner (d : Date) : keeps g (setEndInner d).
Proof. unfold setEndInner. keeps_tac. Qed.

Lemma keeps_setEnd (v : jsval) : keeps g (setEnd v).
Proof.
  pose proof keeps_setEndInner. unfold setEnd, new_Date. keeps_tac.
Qed.

Lemma keeps_setSessionEnd (ev : Event) : keeps g (setSessionEnd ev).
Proof. pose proof keeps_setEnd. unfold setSessionEnd. keeps_tac. Qed.

Lemma keeps_resetEnd : keeps g resetEnd.
Proof. pose proof keeps_setEndInner. unfold resetEnd. keeps_tac. Qed.

Lemma keeps_updateKeepAlive : keeps g updateKeepAlive.
Proof.
  unfold updateKeepAlive, keepaliveCallback, emitEvent, call_value.
  keeps_tac.
Qed.

Lemma keeps_addKeepAliveListeners (l : list string) :
  keeps g (addKeepAliveListeners l).
Proof.
  pose proof keeps_updateKeepAlive.
  induction l as [|event l IH]; cbn [addKeepAliveListeners]; keeps_tac.
Qed.

Lemma keeps_setListeners : keeps g setListeners.
Proof.
  pose proof keeps_addKeepAliveListeners. unfold setListeners. keeps_tac.
Qed.

Lemma keeps_runListener (l : Listener) (ev : Event) :
  keeps g (runListener l ev).
Proof. unfold runListener, call_value. keeps_tac. Qed.

Lemma keeps_deliver (ls : list (string * Listener)) (ev : Event) :
  keeps g (deliver ls ev).
Proof.
  pose proof keeps_runListener.
  induction ls as [|[type l] ls IH]; cbn [deliver]; keeps_tac.
Qed.

Lemma keeps_windowDispatch (ev : Event) : keeps g (windowDispatch ev).
Proof.
  intros w. unfold windowDispatch, exec.
  apply (keeps_deliver (windowListeners w) ev w).
Qed.

End KeptByTheOtherMethods.

(** Only a tick touches the timers: every other method and every event
    reaching [window] leaves the pending timers and [_timeout] as they were. *)
Lemma call_keeps_timer_state (c : Call) :
  c <> CallTick -> keeps timer_state (call c).
Proof.
  intros Hc.
  destruct c; cbn [call]; try contradiction;
    [ apply keeps_updateKeepAlive | apply keeps_setEnd
    | apply keeps_setSessionEnd | apply keeps_resetEnd
    | apply keeps_setListeners | apply keeps_windowDispatch ];
    intros; intros ?; reflexivity.
Qed.

(** Within eight hours the delay is at most an hour. *)
Lemma timeout_at_most_an_hour (now target : Z) (b a s e : string) :
  let r := getDurationData now (Num target) b a s e in
  diff r < 28800 -> 1000 <= timeout r <= 3600000.
Proof.
  intros r Hlt.
  pose proof (diff_nonneg b a s e now target) as Hd. fold r in Hd.
  change (timeout r) with (rescheduleSeconds (diff r) (isPast r) * 1000).
  unfold rescheduleSeconds.
  destruct (negb (isPast r) && negb (diff r =? 0)
            && (Z.rem (lv_next (bestUnit (diff r) (isPast r))) 60 =? 0));
    [lia|].
  destruct (firstExceeded (diff r)) as [[m u]|] eqn:E.
  - destruct (lv_next_selected (diff r) m u (isPast r) Hd E) as [Hn Hpos].
    rewrite Hn.
    apply firstExceeded_some in E. destruct E as (Hm & Hlt' & Hin).
    assert (Hm' : m <= 3600).
    { unfold thresholds in Hin. cbn [In] in Hin.
      repeat (destruct Hin as [Hin|Hin]; [inversion Hin; lia|]).
      contradiction. }
    unfold chosenSeconds in *.
    pose proof (Z.mod_pos_bound (diff r) m ltac:(lia)).
    destruct (negb (isPast r) && (diff r mod m >? 0)); lia.
  - rewrite bestUnit_firstExceeded, E. cbn [lv_next]. lia.
Qed.

(** What a tick does to the timers: the timer [_timeout] names is cleared,
    and then either nothing is scheduled or one fresh timer is, with a delay
    between a second and an hour, and [_timeout] names it. *)
Lemma updateStrings_timers (w : World) :
  let w' := exec updateStrings w in
  (timers w' = cleared w /\ _timeout (this w') = _timeout (this w) /\
   nextTimer w' = nextTimer w) \/
  (exists delay,
     timers w' = cleared w ++ [(nextTimer w, delay)] /\
     _timeout (this w') = Some (nextTimer w) /\
     nextTimer w' = S (nextTimer w) /\
     1000 <= delay <= 3600000).
Proof.
  intros w'. subst w'.
  unfold exec, updateStrings, bind, get_this, clearTimeout, Date_now, cleared.
  cbn [fst snd this reads clock].
  destruct (_end (this w)) as [d|] eqn:He.
  2:{ left. cbn. repeat split. }
  set (tmp := getDurationData (clock w (reads w)) (valueOf d)
                (this_before (this w)) (this_after (this w))
                (this_start (this w)) (this_end (this w))).
  destruct (negb (invalid tmp) && (diff tmp <? 28800)) eqn:Hs.
  - right. exists (timeout tmp).
    apply andb_prop in Hs. destruct Hs as [Hinv Hlt].
    apply Z.ltb_lt in Hlt.
    assert (Hb : 1000 <= timeout tmp <= 3600000).
    { unfold tmp in *. destruct (valueOf d) as [target|].
      - apply timeout_at_most_an_hour. exact Hlt.
      - discriminate Hinv. }
    destruct (negb (this_isPast (this w)) && isPast tmp);
      cbn; repeat split; lia.
  - left.
    destruct (negb (this_isPast (this w)) && isPast tmp);
      cbn; repeat split.
Qed.

Lemma cleared_one_timer (w : World) : one_timer w -> cleared w = [].
Proof.
  intros [H | (id & delay & Ht & Hh)]; unfold cleared.
  - rewrite H. destruct (_timeout (this w)); reflexivity.
  - rewrite Hh, Ht. cbn. rewrite Nat.eqb_refl. reflexivity.
Qed.

(** At most one recomputation is ever pending: from a world where at most
    one timer is pending and [_timeout] names it, that stays so through any
    run of ticks, method calls and events reaching [window]. *)
Theorem one_pending_timer (cs : list Call) :
  forall w, one_timer w -> one_timer (run cs w).
Proof.
  induction cs as [|c cs IH]; intros w Hw; [exact Hw|].
  cbn [run]. apply IH.
  destruct c;
    try (match goal with
         | |- one_timer (exec (call ?c) w) =>
             pose proof (call_keeps_timer_state c ltac:(discriminate) w) as Hk;
             unfold timer_state in Hk;
             apply pair_equal_spec in Hk; destruct Hk as [Hk1 Hk2];
             unfold one_timer; rewrite Hk1, Hk2; exact Hw
         end).
  cbn [call].
  destruct (updateStrings_timers w) as [(Ht & Hh & _) | (delay & Ht & Hh & _)];
    rewrite (cleared_one_timer w Hw) in Ht.
  - left. exact Ht.
  - right. exists (nextTimer w), delay. split; assumption.
Qed.

Lemma one_pending_timer_witness :
  one_timer
    (run [CallTick; CallUpdateKeepAlive; CallTick; CallResetEnd; CallTick]
       (hostAt 1000000000000 1000 (endingAt 1000000300000))).
Proof.
  apply one_pending_timer. left. reflexivity.
Defined.

(** Every delay a tick schedules is between one second and one hour. *)
Theorem scheduled_delay_range (w : World) (id : nat) (delay : Z) :
  In (id, delay) (timers (exec updateStrings w)) ->
  In (id, delay) (timers w) \/ 1000 <= delay <= 3600000.
Proof.
  intros Hin.
  assert (Hsub : forall t, In t (cleared w) -> In t (timers w)).
  { intros t Ht. unfold cleared in Ht.
    destruct (_timeout (this w)); [|exact Ht].
    apply filter_In in Ht. apply Ht. }
  destruct (updateStrings_timers w) as [(Ht & _) | (d & Ht & _ & _ & Hb)];
    rewrite Ht in Hin.
  - left. apply Hsub. exact Hin.
  - apply in_app_or in Hin. destruct Hin as [Hin|Hin].
    + left. apply Hsub. exact Hin.
    + right. destruct Hin as [Hin|[]]. inversion Hin. subst. exact Hb.
Qed.

Lemma scheduled_delay_range_witness :
  In (0%nat, 1000)
     (timers (exec updateStrings
                (hostAt 1000000000000 1000 (endingAt 1000003600000)))) /\
  (In (0%nat, 1000) (timers (hostAt 1000000000000 1000 (endingAt 1000003600000)))
   \/ 1000 <= 1000 <= 3600000).
Proof.
  assert (H : In (0%nat, 1000)
                (timers (exec updateStrings
                   (hostAt 1000000000000 1000 (endingAt 1000003600000)))))
    by (left; reflexivity).
  split; [exact H|].
  apply (scheduled_delay_range _ _ _ H).
Defined.

(** A tick of an element whose end date was never set throws, after
    clearing the pending timer: nothing is displayed, dispatched or
    scheduled, so the display is never recomputed again. *)
Theorem tick_without_end (w : World) :
  _end (this w) = None ->
  (exists msg, fst (updateStrings w) = Throw msg) /\
  this (exec updateStrings w) = this w /\
  dispatched (exec updateStrings w) = dispatched w /\
  timers (exec updateStrings w) = cleared w /\
  nextTimer (exec updateStrings w) = nextTimer w.
Proof.
  intros He.
  unfold exec, updateStrings, bind, get_this, clearTimeout, Date_now, cleared.
  cbn [fst snd this reads clock]. rewrite He. cbn.
  split; [eexists; reflexivity|]. repeat split.
Qed.

Lemma tick_without_end_witness :
  timers (exec updateStrings (hostAt 0 1000 constructed)) = [].
Proof.
  destruct (tick_without_end (hostAt 0 1000 constructed) eq_refl)
    as (_ & _ & _ & H & _).
  rewrite H. reflexivity.
Defined.

(** A tick of an element whose end date is invalid shows "Session", the
    before-label and "unknown", leaves the element not past, dispatches
    nothing and schedules nothing. *)
Theorem tick_with_invalid_end (w : World) :
  _end (this w) = Some (mkDate NaN) ->
  let w' := exec updateStrings w in
  _msgSpan (this w') = ("Session " ++ this_before (this w) ++ " ")%string /\
  _valueSpan (this w') = "unknown" /\
  this_isPast (this w') = false /\
  dispatched w' = dispatched w /\
  timers w' = cleared w /\ nextTimer w' = nextTimer w.
Proof.
  intros He w'. subst w'.
  unfold exec, updateStrings, bind, get_this, clearTimeout, Date_now, cleared.
  cbn [fst snd this reads clock]. rewrite He.
  cbn [valueOf getDurationData isPast invalid diff]. rewrite andb_false_r.
  cbn. rewrite ?app_nil_r. repeat split.
Qed.

Lemma tick_with_invalid_end_witness :
  _valueSpan
    (this (exec updateStrings (hostAt 0 1000 (set_end (mkDate NaN) constructed))))
  = "unknown".
Proof.
  destruct (tick_with_invalid_end
              (hostAt 0 1000 (set_end (mkDate NaN) constructed)) eq_refl)
    as (_ & H & _).
  exact H.
Defined.

(** ** Keepalive throttling *)

(** A call within the threshold of the last keepalive only records the
    interaction. *)
Lemma updateKeepAlive_quiet_step (w : World) :
  clock w (reads w) - _lastKeep (this w) <= keepalive (this w) * 1000 ->
  let w' := exec updateKeepAlive w in
  dispatched w' = dispatched w /\ console w' = console w /\
  _lastKeep (this w') = _lastKeep (this w) /\
  _keepalive (this w') = _keepalive (this w) /\
  _keepaliveCallback (this w') = _keepaliveCallback (this w) /\
  _lastInteraction (this w') = clock w (reads w) /\
  clock w' = clock w /\ reads w' = S (reads w).
Proof.
  intros Hle w'. subst w'.
  unfold exec, updateKeepAlive, bind, get_this, modify_this, Date_now.
  cbn [fst snd this with_this set_lastInteraction _lastInteraction _lastKeep
       keepalive _keepalive _keepaliveCallback].
  unfold keepalive in Hle.
  assert (Hb : (clock w (reads w) - _lastKeep (this w)
                >? _keepalive (this w) * 1000) = false).
  { destruct (clock w (reads w) - _lastKeep (this w)
              >? _keepalive (this w) * 1000) eqn:E; [|reflexivity].
    apply Z.gtb_lt in E. lia. }
  rewrite Hb. cbn. repeat split.
Qed.

(** A call beyond the threshold sends one "keepalive" and restarts the
    threshold from the time of the call, with or without a custom handler. *)
Lemma updateKeepAlive_emits (w : World) :
  clock w (reads w) - _lastKeep (this w) > keepalive (this w) * 1000 ->
  let w' := exec updateKeepAlive w in
  dispatched w' = dispatched w ++ [keepalive_event] /\
  _lastKeep (this w') = clock w (reads w) /\
  _keepalive (this w') = _keepalive (this w) /\
  clock w' = clock w /\ reads w' = S (reads w).
Proof.
  intros Hgt w'. subst w'.
  unfold exec, updateKeepAlive, bind, get_this, modify_this, Date_now.
  cbn [fst snd this with_this set_lastInteraction _lastInteraction _lastKeep
       keepalive _keepalive _keepaliveCallback].
  unfold keepalive in Hgt.
  assert (Hb : (clock w (reads w) - _lastKeep (this w)
                >? _keepalive (this w) * 1000) = true)
    by (apply Z.gtb_lt; lia).
  rewrite Hb. destruct (_keepaliveCallback (this w)); cbn; repeat split.
Qed.

Lemma updateKeepAlive_quiet_run (n : nat) :
  forall w : World,
    (forall i, (i < n)%nat ->
       clock w (reads w + i) - _lastKeep (this w) <= keepalive (this w) * 1000) ->
    dispatched (exec_n updateKeepAlive n w) = dispatched w /\
    _lastKeep (this (exec_n updateKeepAlive n w)) = _lastKeep (this w).
Proof.
  induction n as [|n IH]; intros w Hw; [split; reflexivity|].
  cbn [exec_n].
  assert (H0 : clock w (reads w) - _lastKeep (this w)
               <= keepalive (this w) * 1000).
  { specialize (Hw 0%nat ltac:(lia)). rewrite Nat.add_0_r in Hw. exact Hw. }
  destruct (updateKeepAlive_quiet_step w H0)
    as (S1 & _ & S3 & S4 & _ & _ & S7 & S8).
  destruct (IH (exec updateKeepAlive w)) as [I1 I2].
  - intros i Hi. unfold keepalive. rewrite S7, S8, S3, S4.
    replace (S (reads w) + i)%nat with (reads w + S i)%nat by lia.
    apply (Hw (S i)). lia.
  - split; congruence.
Qed.




(** Throttling: when a call of [updateKeepAlive] finds the last keepalive
    more than the threshold back, it sends one "keepalive"; the next [n]
    calls, as long as their readings of the clock are within the threshold
    of that call, send none. *)
Theorem keepalive_throttled (w : World) (n : nat) :
  let t := clock w (reads w) in
  t - _lastKeep (this w) > keepalive (this w) * 1000 ->
  (forall i, (1 <= i <= n)%nat ->
     clock w (reads w + i) - t <= keepalive (this w) * 1000) ->
  dispatched (exec_n updateKeepAlive (S n) w)
  = dispatched w ++ [keepalive_event] /\
  _lastKeep (this (exec_n updateKeepAlive (S n) w)) = t.
Proof.
  intros t Hgt Hwin. cbn [exec_n].
  destruct (updateKeepAlive_emits w Hgt) as (E1 & E2 & E3 & E4 & E5).
  destruct (updateKeepAlive_quiet_run n (exec updateKeepAlive w)) as [Q1 Q2].
  - intros i Hi. unfold keepalive. rewrite E4, E5, E2, E3.
    replace (S (reads w) + i)%nat with (reads w + S i)%nat by lia.
    apply (Hwin (S i)). lia.
  - subst t. split; congruence.
Qed.

Lemma keepalive_throttled_witness :
  dispatched
    (exec_n updateKeepAlive 3 (hostAt 1000000000000 40000 (keptAlive 90 None)))
  = [keepalive_event].
Proof.
  apply (keepalive_throttled (hostAt 1000000000000 40000 (keptAlive 90 None)) 2).
  - vm_compute. reflexivity.
  - intros i Hi. destruct i as [|[|[|i]]]; try lia; vm_compute; discriminate.
Defined.

(** ** Resets *)

(** A relative reset reads the clock twice: for the new end date, the first
    reading plus the duration, and for the check.  Within the range of a
    [Date], the end date is replaced when it is not before the second
    reading, without a warning; otherwise it is left as it was and a warning
    is logged. *)
Theorem resetEnd_decision (w : World) :
  let t1 := clock w (reads w) in
  let t2 := clock w (S (reads w)) in
  let target := t1 + _duration (this w) in
  let w' := exec resetEnd w in
  Z.abs target <= 8640000000000000 ->
  (t2 <= target ->
   _end (this w') = Some (mkDate (Num target)) /\ console w' = console w) /\
  (target < t2 ->
   _end (this w') = _end (this w) /\
   console w' =
     console w ++
       [(Warn, "<session-timeout> expects new end date-time to be later than now")]).
Proof.
  intros t1 t2 target w' Hrange. subst w'.
  unfold exec, resetEnd, setEndInner, bind, get_this, Date_now, Date_of.
  cbn [fst snd this reads clock Date_strict_eq_string].
  fold t1. fold target.
  assert (Hr : (Z.abs target <=? 8640000000000000) = true)
    by (apply Z.leb_le; exact Hrange).
  rewrite Hr. cbn [valueOf num_lt]. fold t2.
  split; intros H.
  - assert (Hb : (target <? t2) = false) by (apply Z.ltb_ge; exact H).
    rewrite Hb. cbn. split; reflexivity.
  - assert (Hb : (target <? t2) = true) by (apply Z.ltb_lt; exact H).
    rewrite Hb. cbn. split; reflexivity.
Qed.

Lemma resetEnd_decision_witness :
  _end (this (exec resetEnd
                (hostAt 1000000000000 1 (set_duration 300000 constructed))))
  = Some (mkDate (Num 1000000300000)).
Proof.
  destruct (resetEnd_decision
              (hostAt 1000000000000 1 (set_duration 300000 constructed)))
    as [H _].
  - vm_compute. discriminate.
  - destruct H as [H _]; [vm_compute; discriminate|exact H].
Defined.

(** A relative reset whose end date falls outside the range of a [Date]
    stores an invalid date without a warning, and the tick that follows
    shows "unknown" and schedules nothing. *)
Theorem resetEnd_out_of_range (w : World) :
  let target := clock w (reads w) + _duration (this w) in
  let w1 := exec resetEnd w in
  let w2 := exec updateStrings w1 in
  8640000000000000 < Z.abs target ->
  _end (this w1) = Some (mkDate NaN) /\ console w1 = console w /\
  _valueSpan (this w2) = "unknown" /\ nextTimer w2 = nextTimer w /\
  dispatched w2 = dispatched w.
Proof.
  intros target w1 w2 Hout. subst w2 w1.
  unfold exec, updateStrings, resetEnd, setEndInner, bind, get_this,
    clearTimeout, Date_now, Date_of.
  cbn [fst snd this reads clock Date_strict_eq_string].
  fold target.
  assert (Hr : (Z.abs target <=? 8640000000000000) = false)
    by (apply Z.leb_gt; exact Hout).
  rewrite Hr. cbn. rewrite ?andb_false_r. cbn. rewrite ?app_nil_r.
  repeat split.
Qed.

Lemma resetEnd_out_of_range_witness :
  _valueSpan
    (this (exec updateStrings
             (exec resetEnd
                (hostAt 1000000000000 1
                   (set_duration 9000000000000000 constructed)))))
  = "unknown".
Proof.
  destruct (resetEnd_out_of_range
              (hostAt 1000000000000 1
                 (set_duration 9000000000000000 constructed)))
    as (_ & _ & H & _).
  - vm_compute. reflexivity.
  - exact H.
Defined.

(** Assigning the [when] property never throws and never logs an error,
    whatever is assigned: a value that is not a string, or a blank one,
    changes nothing at all, and any other string at most adds the warning
    of a refused end date. *)
Theorem when_setter_is_silent (input : jsval) (w : World) :
  let w' := exec (set_when_prop input) w in
  fst (set_when_prop input w) = Return tt /\
  (exists l, console w' = console w ++ l /\
             Forall (fun entry => fst entry = Warn) l) /\
  ((forall s, input = JString s -> String.eqb (trim s) "" = true) -> w' = w).
Proof.
  intros w'. subst w'.
  assert (Hsame : set_when_prop input w = (Return tt, w) ->
    fst (set_when_prop input w) = Return tt /\
    (exists l, console (exec (set_when_prop input) w) = console w ++ l /\
               Forall (fun entry => fst entry = Warn) l) /\
    ((forall s, input = JString s -> String.eqb (trim s) "" = true) ->
     exec (set_when_prop input) w = w)).
  { intros H. unfold exec. rewrite H. cbn [fst snd].
    split; [reflexivity|]. split; [|intros _; reflexivity].
    exists []. rewrite app_nil_r. split; constructor. }
  destruct input as [| |s|n|f]; try (apply Hsame; reflexivity).
  destruct (String.eqb (trim s) "") eqn:E.
  - apply Hsame. unfold set_when_prop, try_catch, setEnd. rewrite E.
    reflexivity.
  - clear Hsame.
    unfold exec, set_when_prop, try_catch, setEnd. rewrite E.
    unfold new_Date, setEndInner, bind, Date_now, ret.
    cbn [fst snd Date_strict_eq_string valueOf num_lt clock reads].
    destruct (clock w (reads w) <? clock w (S (reads w))); cbn.
    + repeat split.
      * eexists. split; [reflexivity|]. constructor; [reflexivity|constructor].
      * intros H. specialize (H s eq_refl). congruence.
    + repeat split.
      * exists []. rewrite app_nil_r. split; constructor.
      * intros H. specialize (H s eq_refl). congruence.
Qed.

Lemma when_setter_is_silent_witness :
  exec (set_when_prop (JString "   ")) (hostAt 0 1 constructed)
  = hostAt 0 1 constructed.
Proof.
  destruct (when_setter_is_silent (JString "   ") (hostAt 0 1 constructed))
    as (_ & _ & H).
  apply H. intros s Hs. injection Hs as <-. reflexivity.
Defined.

(** ** Parsing and sanitising numbers *)

Lemma parse_digits_stops (rest : list ascii) (acc : option Z) :
  stops_number rest -> parse_digits rest acc = acc.
Proof.
  destruct rest as [|c rest]; cbn; intros H; [reflexivity|].
  rewrite H. reflexivity.
Qed.

Ltac digit_step IH :=
  cbn [NilEmpty.string_of_uint list_ascii_of_string app parse_digits
       Pos.of_uint_acc Pos.of_uint];
  match goal with
  | |- context [is_digit ?c] => change (is_digit c) with true
  end;
  cbv iota;
  match goal with
  | |- context [digit_value ?c] =>
      let v := eval vm_compute in (digit_value c) in
      change (digit_value c) with v
  end.

(** Digits read onto a positive accumulator. *)
Lemma parse_digits_acc (u : Decimal.uint) :
  forall (p : positive) (rest : list ascii),
    stops_number rest ->
    parse_digits
      (list_ascii_of_string (NilEmpty.string_of_uint u) ++ rest)
      (Some (Z.pos p))
    = Some (Z.pos (Pos.of_uint_acc u p)).
Proof.
  induction u as [|u IH|u IH|u IH|u IH|u IH|u IH|u IH|u IH|u IH|u IH];
    intros p rest Hr;
    [ cbn [NilEmpty.string_of_uint list_ascii_of_string app Pos.of_uint_acc];
      apply parse_digits_stops; exact Hr
    | digit_step IH; rewrite <- (IH _ rest Hr); do 2 f_equal; lia .. ].
Qed.

(** Digits read from the start, leading zeros included. *)
Lemma parse_digits_zero (u : Decimal.uint) :
  forall rest : list ascii,
    stops_number rest ->
    parse_digits
      (list_ascii_of_string (NilEmpty.string_of_uint u) ++ rest) (Some 0)
    = Some (Z.of_N (Pos.of_uint u)).
Proof.
  induction u as [|u IH|u IH|u IH|u IH|u IH|u IH|u IH|u IH|u IH|u IH];
    intros rest Hr;
    [ cbn [NilEmpty.string_of_uint list_ascii_of_string app Pos.of_uint];
      apply parse_digits_stops; exact Hr
    | digit_step IH; apply (IH rest Hr)
    | digit_step IH; cbn [Z.of_N];
      rewrite <- (parse_digits_acc u _ rest Hr); reflexivity .. ].
Qed.

Lemma parse_digits_start (u : Decimal.uint) (rest : list ascii) :
  u <> Decimal.Nil -> stops_number rest ->
  parse_digits
    (list_ascii_of_string (NilEmpty.string_of_uint u) ++ rest) None
  = Some (Z.of_N (Pos.of_uint u)).
Proof.
  intros Hu Hr. destruct u; [contradiction| ..];
    [ digit_step tt; apply (parse_digits_zero u rest Hr)
    | digit_step tt; cbn [Z.of_N];
      rewrite <- (parse_digits_acc u _ rest Hr); reflexivity .. ].
Qed.

Lemma list_ascii_of_string_app (x y : string) :
  list_ascii_of_string (x ++ y)
  = list_ascii_of_string x ++ list_ascii_of_string y.
Proof. induction x as [|c x IH]; cbn; [reflexivity|]. rewrite IH. reflexivity. Qed.

(** A run of digits, read with or without a minus sign before it. *)
Lemma parseInt_integer_of_uint (u : Decimal.uint) (suffix : string) :
  u <> Decimal.Nil ->
  stops_number (list_ascii_of_string suffix) ->
  parseInt_integer (NilEmpty.string_of_uint u ++ suffix)
  = Some (Z.of_N (Pos.of_uint u))
  /\ parseInt_integer (String "-" (NilEmpty.string_of_uint u) ++ suffix)
     = Some (- Z.of_N (Pos.of_uint u)).
Proof.
  intros Hn Hs.
  pose proof (parse_digits_start u _ Hn Hs) as Hp.
  unfold parseInt_integer. split.
  - rewrite list_ascii_of_string_app.
    destruct u as [|u|u|u|u|u|u|u|u|u|u]; [contradiction| ..];
      cbn [NilEmpty.string_of_uint list_ascii_of_string app trim_start] in *;
      match goal with
      | |- context [is_space ?c] => change (is_space c) with false
      end; cbv iota;
      repeat match goal with
      | |- context [Ascii.eqb ?c ?d] => change (Ascii.eqb c d) with false
      end; cbv iota; cbn [fst snd];
      rewrite Hp; f_equal; lia.
  - cbn [append list_ascii_of_string]. rewrite list_ascii_of_string_app.
    cbn [trim_start].
    change (is_space "-") with false. cbv iota.
    change (Ascii.eqb "-" "-") with true. cbv iota. cbn [fst snd].
    rewrite Hp. f_equal; lia.
Qed.

(** The integer read from the decimal text of [n] is [n], whatever text
    that does not start with a digit follows it. *)
Lemma parseInt_integer_Z_to_string (n : Z) (suffix : string) :
  stops_number (list_ascii_of_string suffix) ->
  parseInt_integer (Z_to_string n ++ suffix) = Some n.
Proof.
  intros Hs. destruct n as [|p|p].
  - change (Z_to_string 0)
      with (NilEmpty.string_of_uint (Decimal.D0 Decimal.Nil)).
    destruct (parseInt_integer_of_uint (Decimal.D0 Decimal.Nil) suffix
                ltac:(discriminate) Hs) as [H _].
    exact H.
  - pose proof (DecimalPos.Unsigned.to_uint_nonnil p) as Hn.
    destruct (parseInt_integer_of_uint (Pos.to_uint p) suffix Hn Hs) as [H _].
    rewrite DecimalPos.Unsigned.of_to in H. cbn [Z.of_N] in H.
    unfold Z_to_string, Z.to_int, Pos.to_int, NilZero.string_of_int,
      NilZero.string_of_uint.
    destruct (Pos.to_uint p) eqn:E; [contradiction| ..]; exact H.
  - pose proof (DecimalPos.Unsigned.to_uint_nonnil p) as Hn.
    destruct (parseInt_integer_of_uint (Pos.to_uint p) suffix Hn Hs) as [_ H].
    rewrite DecimalPos.Unsigned.of_to in H. cbn [Z.of_N Z.opp] in H.
    unfold Z_to_string, Z.to_int, NilZero.string_of_int,
      NilZero.string_of_uint.
    destruct (Pos.to_uint p) eqn:E; [contradiction| ..]; exact H.
Qed.

(** A safe integer is the number it becomes. *)
Lemma to_double_safe (z : Z) :
  Z.abs z <= MAX_SAFE_INTEGER -> to_double z = Num z.
Proof.
  unfold MAX_SAFE_INTEGER, to_double. intros H.
  assert (Hb : (Z.abs z <? 9007199254740992) = true) by (apply Z.ltb_lt; lia).
  rewrite Hb. reflexivity.
Qed.

(** [parseInt] reads back the decimal text of a safe integer, whatever
    text that does not start with a digit follows it. *)
Lemma parseInt_Z_to_string (n : Z) (suffix : string) :
  Z.abs n <= MAX_SAFE_INTEGER ->
  stops_number (list_ascii_of_string suffix) ->
  parseInt (Z_to_string n ++ suffix) = Num n.
Proof.
  intros Hn Hs. unfold parseInt.
  rewrite (parseInt_integer_Z_to_string n suffix Hs).
  apply to_double_safe. exact Hn.
Qed.

(** Beyond the safe integers the text is rounded as the code rounds it. *)
Example parseInt_rounds :
  parseInt "9007199254740993" = Num 9007199254740992 /\
  parseInt "9007199254740995" = Num 9007199254740996 /\
  parseInt "99999999999999999999999" = Num 99999999999999991611392 /\
  parseInt "-9007199254740993" = Num (-9007199254740992).
Proof. vm_compute. repeat split. Qed.

(** A duration written as the decimal text of a safe integer [n], with or
    without a unit or other text after the digits, is read as [n], and
    taken as seconds and multiplied by 1000 when below 180000, the result
    being a safe integer too. *)
Theorem sanitiseDuation_of_text (n : Z) (suffix : string) :
  Z.abs n <= MAX_SAFE_INTEGER ->
  Z.abs (if n <? 180000 then n * 1000 else n) <= MAX_SAFE_INTEGER ->
  stops_number (list_ascii_of_string suffix) ->
  sanitiseDuation (JString (Z_to_string n ++ suffix))
  = Return (if n <? 180000 then n * 1000 else n).
Proof.
  intros Hn _ Hs. unfold sanitiseDuation.
  rewrite (parseInt_Z_to_string n suffix Hn Hs).
  rewrite Z.rem_1_r. reflexivity.
Qed.

Lemma sanitiseDuation_of_text_witness :
  sanitiseDuation (JString "300s") = Return 300000.
Proof.
  apply (sanitiseDuation_of_text 300 "s");
    [vm_compute; discriminate|vm_compute; discriminate|reflexivity].
Defined.



(** What is not a number is refused with the duration error: [undefined],
    [null], a function, [NaN], and any text that, after its leading white
    space and an optional sign, does not start with a digit. *)
Theorem sanitiseDuation_rejects (input : jsval) :
  match input with
  | JString s =>
      match trim_start (list_ascii_of_string s) with
      | [] => True
      | c :: rest =>
          if Ascii.eqb c "-" || Ascii.eqb c "+" then stops_number rest
          else is_digit c = false
      end
  | JNumber n => n = NaN
  | _ => True
  end ->
  sanitiseDuation input = Throw duration_error.
Proof.
  destruct input as [| |s|n|f]; try reflexivity.
  - intros H. unfold sanitiseDuation.
    assert (Hn : parseInt s = NaN); [|rewrite Hn; reflexivity].
    unfold parseInt, parseInt_integer.
    destruct (trim_start (list_ascii_of_string s)) as [|c rest];
      [reflexivity|].
    destruct (Ascii.eqb c "-"); cbn [orb fst snd] in *.
    + rewrite (parse_digits_stops rest None H). reflexivity.
    + destruct (Ascii.eqb c "+"); cbn [fst snd] in *.
      * rewrite (parse_digits_stops rest None H). reflexivity.
      * cbn [parse_digits]. rewrite H. reflexivity.
  - intros ->. reflexivity.
Qed.

Lemma sanitiseDuation_rejects_witness :
  sanitiseDuation (JString "  five minutes") = Throw duration_error.
Proof.
  apply (sanitiseDuation_rejects (JString "  five minutes")). reflexivity.
Defined.

(** The [keepalive] property never becomes negative through its setter,
    whatever is assigned.  A safe integer [n >= 0], as a number or as decimal
    text, is stored as it is given, unscaled; a negative safe integer is
    refused: the threshold stays and the error is logged. *)
Theorem keepalive_setter (w : World) :
  (forall input,
     0 <= keepalive (this w) ->
     0 <= keepalive (this (exec (set_keepalive_prop input) w))) /\
  (forall n suffix,
     0 <= n <= MAX_SAFE_INTEGER ->
     stops_number (list_ascii_of_string suffix) ->
     keepalive (this (exec (set_keepalive_prop (JNumber (Num n))) w)) = n /\
     keepalive
       (this (exec (set_keepalive_prop (JString (Z_to_string n ++ suffix))) w))
     = n) /\
  (forall n,
     - MAX_SAFE_INTEGER <= n < 0 ->
     let w' := exec (set_keepalive_prop (JNumber (Num n))) w in
     keepalive (this w') = keepalive (this w) /\
     console w' = console w ++ [(Error, keepalive_error (JNumber (Num n)))]).
Proof.
  split; [|split].
  - intros input H. unfold exec, set_keepalive_prop.
    destruct input as [| |s|n|f]; try exact H.
    + destruct (parseInt s) as [n|]; [|exact H].
      destruct (n <? 0) eqn:E; [exact H|]. apply Z.ltb_ge in E. exact E.
    + destruct n as [n|]; [|exact H].
      destruct (n <? 0) eqn:E; [exact H|]. apply Z.ltb_ge in E. exact E.
  - intros n suffix Hn Hs.
    assert (Hb : (n <? 0) = false) by (apply Z.ltb_ge; lia).
    unfold exec, set_keepalive_prop.
    rewrite (parseInt_Z_to_string n suffix ltac:(lia) Hs), Hb.
    split; reflexivity.
  - intros n Hn w'. subst w'.
    assert (Hb : (n <? 0) = true) by (apply Z.ltb_lt; lia).
    unfold exec, set_keepalive_prop. rewrite Hb. split; reflexivity.
Qed.

Lemma keepalive_setter_witness :
  keepalive
    (this (exec (set_keepalive_prop (JString "20")) (hostAt 0 1 constructed)))
  = 20.
Proof.
  destruct (keepalive_setter (hostAt 0 1 constructed)) as (_ & H & _).
  destruct (H 20 "" ltac:(unfold MAX_SAFE_INTEGER; lia) I) as [_ H2].
  exact H2.
Defined.

(** ** Connecting and disconnecting *)

Lemma keeps_removeKeepAliveListeners {C} (g : World -> C) (l : list string) :
  keeps g updateKeepAlive ->
  (forall t cb, keeps g (removeEventListener t cb)) ->
  keeps g (removeKeepAliveListeners l).
Proof.
  intros Hu Hr.
  induction l as [|event l IH]; cbn [removeKeepAliveListeners]; keeps_tac.
Qed.

Lemma keeps_clearListeners {C} (g : World -> C) :
  keeps g updateKeepAlive ->
  (forall t cb, keeps g (removeEventListener t cb)) ->
  keeps g clearListeners.
Proof.
  intros Hu Hr. pose proof (fun l => keeps_removeKeepAliveListeners g l Hu Hr).
  unfold clearListeners. keeps_tac.
Qed.

Lemma updateKeepAlive_keeps_timer_state : keeps timer_state updateKeepAlive.
Proof. apply keeps_updateKeepAlive; intros; intros ?; reflexivity. Qed.

Lemma updateKeepAlive_keeps_listeners : keeps windowListeners updateKeepAlive.
Proof. apply keeps_updateKeepAlive; intros; intros ?; reflexivity. Qed.

Lemma returns_bind {A B} (m : M A) (k : A -> M B) :
  returns m -> (forall a, returns (k a)) -> returns (bind m k).
Proof.
  intros Hm Hk w. destruct (Hm w) as (a & w1 & E). unfold bind. rewrite E.
  apply Hk.
Qed.

Lemma returns_try_catch {A} (m : M A) (h : string -> M A) :
  (forall msg, returns (h msg)) -> returns (try_catch m h).
Proof.
  intros Hh w. unfold try_catch.
  destruct (m w) as [[a|msg] w1]; [eexists; eexists; reflexivity|apply Hh].
Qed.

Ltac returns_tac :=
  repeat first
    [ assumption
    | apply returns_bind; [|intros ?]
    | apply returns_try_catch; intros ?
    | match goal with
      | |- returns (if ?b then _ else _) => destruct b
      | |- returns (match ?x with _ => _ end) => destruct x
      end
    | (intros ?; eexists; eexists; reflexivity) ].

Lemma updateKeepAlive_returns : returns updateKeepAlive.
Proof. unfold updateKeepAlive. returns_tac. Qed.

Lemma clearListeners_returns : returns clearListeners.
Proof.
  pose proof updateKeepAlive_returns.
  assert (Hl : forall l, returns (removeKeepAliveListeners l)).
  { induction l as [|event l IH]; cbn [removeKeepAliveListeners]; returns_tac. }
  unfold clearListeners. returns_tac.
Qed.

(** Disconnecting cancels the pending recomputation: from a world where at
    most one timer is pending and [_timeout] names it, none is pending
    afterwards. *)
Theorem disconnected_no_pending_timer (w : World) :
  one_timer w -> timers (exec disconnectedCallback w) = [].
Proof.
  intros Hw.
  assert (Hk : keeps timer_state clearListeners).
  { apply keeps_clearListeners;
      [apply updateKeepAlive_keeps_timer_state|intros; intros ?; reflexivity]. }
  specialize (Hk w). unfold timer_state in Hk.
  apply pair_equal_spec in Hk. destruct Hk as [Hk1 Hk2].
  unfold exec, disconnectedCallback, bind in *.
  destruct (clearListeners w) as [[[]|msg] w1] eqn:E; cbn [snd] in *.
  - unfold get_this. cbn [fst snd].
    destruct Hw as [H | (id & delay & Ht & Hh)].
    + destruct (_timeout (this w1)); cbn; rewrite Hk1, H; reflexivity.
    + rewrite Hk2, Hh. cbn. rewrite Hk1, Ht. cbn.
      rewrite Nat.eqb_refl. reflexivity.
  - destruct (clearListeners_returns w) as ([] & w0 & Hr). congruence.
Qed.

Lemma remove_registration_app (r : string * Listener)
  (ls rest : list (string * Listener)) :
  existsb (same_registration r) ls = false ->
  remove_registration r (ls ++ r :: rest) = ls ++ rest.
Proof.
  induction ls as [|x ls IH]; cbn [existsb app remove_registration]; intros H.
  - assert (Hr : same_registration r r = true).
    { unfold same_registration. rewrite String.eqb_refl.
      destruct (snd r); reflexivity. }
    rewrite Hr. reflexivity.
  - apply orb_false_elim in H. destruct H as [H1 H2].
    rewrite H1, (IH H2). reflexivity.
Qed.

Lemma exec_bind_addEventListener {B} (t : string) (cb : option Listener)
  (k : Datatypes.unit -> M B) (w : World) :
  exec (bind (addEventListener t cb) k) w
  = exec (k tt) (exec (addEventListener t cb) w).
Proof. reflexivity. Qed.

Lemma exec_bind_removeEventListener {B} (t : string) (cb : option Listener)
  (k : Datatypes.unit -> M B) (w : World) :
  exec (bind (removeEventListener t cb) k) w
  = exec (k tt) (exec (removeEventListener t cb) w).
Proof. reflexivity. Qed.

Lemma setListeners_listeners (w : World) :
  existsb (same_registration ("setsessionend", L_setSessionEnd))
    (windowListeners w) = false ->
  existsb (same_registration ("resetsession", L_resetEnd))
    (windowListeners w) = false ->
  windowListeners (exec setListeners w)
  = windowListeners w
      ++ [("setsessionend", L_setSessionEnd); ("resetsession", L_resetEnd)].
Proof.
  intros Ha Hb.
  assert (Hk : keeps windowListeners
                 (bind get_this (fun e =>
                    if keepalive e >? minKeepalive
                    then addKeepAliveListeners watchableEvents else ret tt))).
  { apply keeps_bind; [intros ?; reflexivity|]. intros e.
    destruct (keepalive e >? minKeepalive); [|intros ?; reflexivity].
    cbn [watchableEvents addKeepAliveListeners].
    repeat (apply keeps_bind;
            [first [apply updateKeepAlive_keeps_listeners
                   |intros ?; reflexivity]|intros ?]).
    intros ?; reflexivity. }
  unfold setListeners. rewrite !exec_bind_addEventListener, Hk.
  unfold exec. cbn [addEventListener snd windowListeners]. rewrite Ha.
  rewrite existsb_app, Hb. cbn [existsb orb same_registration fst snd].
  cbn. rewrite <- app_assoc. reflexivity.
Qed.

(** Disconnecting undoes the registrations of connecting: when neither of
    the two reset listeners was registered before [setListeners], the
    listeners on [window] after [setListeners] and then [clearListeners] are
    those there were before. *)
Theorem listeners_registered_then_removed (w : World) :
  existsb (same_registration ("setsessionend", L_setSessionEnd))
    (windowListeners w) = false ->
  existsb (same_registration ("resetsession", L_resetEnd))
    (windowListeners w) = false ->
  windowListeners (exec setListeners w)
  = windowListeners w
      ++ [("setsessionend", L_setSessionEnd); ("resetsession", L_resetEnd)] /\
  windowListeners (exec clearListeners (exec setListeners w))
  = windowListeners w.
Proof.
  intros Ha Hb.
  pose proof (setListeners_listeners w Ha Hb) as Hs.
  split; [exact Hs|].
  set (w1 := exec setListeners w) in *.
  assert (Hk : keeps windowListeners
                 (bind get_this (fun e =>
                    if keepalive e >? minKeepalive
                    then removeKeepAliveListeners watchableEvents
                    else ret tt))).
  { apply keeps_bind; [intros ?; reflexivity|]. intros e.
    destruct (keepalive e >? minKeepalive); [|intros ?; reflexivity].
    cbn [watchableEvents removeKeepAliveListeners].
    repeat (apply keeps_bind;
            [first [apply updateKeepAlive_keeps_listeners
                   |intros ?; reflexivity]|intros ?]).
    intros ?; reflexivity. }
  unfold clearListeners. rewrite !exec_bind_removeEventListener, Hk.
  unfold exec at 1 2. cbn [removeEventListener snd windowListeners].
  rewrite Hs.
  rewrite (remove_registration_app _ _ _ Ha).
  rewrite (remove_registration_app _ _ [] Hb). apply app_nil_r.
Qed.

Lemma listeners_registered_then_removed_witness :
  windowListeners
    (exec clearListeners (exec setListeners (hostAt 0 1 (keptAlive 90 None))))
  = [].
Proof.
  destruct (listeners_registered_then_removed (hostAt 0 1 (keptAlive 90 None))
              eq_refl eq_refl) as [_ H].
  exact H.
Defined.

Ltac by_computation := intros; intros ?; reflexivity.

Lemma bind_return_keeps {A B C} (g : World -> C) (m : M A) (k : A -> M B)
  (w : World) (b : B) :
  keeps g m -> fst (bind m k w) = Return b ->
  exists a w1,
    g w1 = g w /\ bind m k w = k a w1 /\ fst (k a w1) = Return b.
Proof.
  intros Hk H. specialize (Hk w). unfold exec, bind in *.
  destruct (m w) as [[a|msg] w1]; cbn [fst snd] in *; [|discriminate H].
  exists a, w1. split; [exact Hk|]. split; [reflexivity|exact H].
Qed.

(** One step through a method that completed: past its first part, which
    leaves [g] alone. *)
Ltac past_part H g lem :=
  apply (bind_return_keeps g) in H; [|lem];
  let a := fresh "a" in
  let w1 := fresh "w" in
  let G := fresh "G" in
  let E := fresh "E" in
  destruct H as (a & w1 & G & E & H); rewrite E; clear E.

Section ConnectedKeeps.

Variable C : Type.
Variable g : World -> C.
Hypothesis g_Date_now : keeps g Date_now.
Hypothesis g_console : forall l msg, keeps g (console_log l msg).
Hypothesis g_dispatch : forall e, keeps g (dispatchEvent e).
Hypothesis g_listen : forall t cb, keeps g (addEventListener t cb).
Hypothesis g_end : forall d, keeps g (modify_this (set_end d)).
Hypothesis g_lastInteraction :
  forall t, keeps g (modify_this (set_lastInteraction t)).
Hypothesis g_lastKeep : forall t, keeps g (modify_this (set_lastKeep t)).
Hypothesis g_callback :
  forall c, keeps g (modify_this (set_keepaliveCallback c)).
Hypothesis g_duration : forall d, keeps g (modify_this (set_duration d)).

Lemma keeps_connect_duration (attrs : list (string * string)) :
  keeps g
    (if hasAttribute attrs "duration" then
       bind (liftO (sanitiseDuation (getAttribute attrs "duration")))
         (fun d => modify_this (set_duration d))
     else ret tt).
Proof. keeps_tac. Qed.

Lemma keeps_connect_when (attrs : list (string * string)) :
  keeps g
    (if hasAttribute attrs "when" then setEnd (getAttribute attrs "when")
     else ret tt).
Proof.
  pose proof (keeps_setEnd C g g_Date_now g_console g_end).
  keeps_tac.
Qed.

Lemma keeps_connect_reset (e : SessionTimeout) :
  keeps g
    (match when_get e with
     | JString s =>
         if String.eqb (trim s) "" then resetEnd else setEnd (JString s)
     | _ => resetEnd
     end).
Proof.
  pose proof (keeps_setEnd C g g_Date_now g_console g_end).
  pose proof (keeps_resetEnd C g g_Date_now g_console g_end).
  unfold when_get. keeps_tac.
Qed.

Lemma keeps_connect_listeners : keeps g setListeners.
Proof.
  apply keeps_setListeners; assumption.
Qed.

End ConnectedKeeps.

Lemma getAttribute_hasAttribute (attrs : list (string * string))
  (name s : string) :
  getAttribute attrs name = JString s -> hasAttribute attrs name = true.
Proof.
  unfold getAttribute, hasAttribute.
  destruct (find (fun a => String.eqb (fst a) name) attrs) as [a|] eqn:E;
    [|discriminate].
  intros _. apply find_some in E. apply existsb_exists.
  exists a. exact E.
Qed.

(** Connecting, when it completes, schedules the first tick one second
    later: one timer is added, with a fresh handle and a delay of 1000, and
    [_timeout] names it. *)
Theorem connected_schedules_first_tick (attrs : list (string * string))
  (w : World) :
  fst (connectedCallback attrs w) = Return tt ->
  let w' := exec (connectedCallback attrs) w in
  timers w' = timers w ++ [(nextTimer w, 1000)] /\
  nextTimer w' = S (nextTimer w) /\
  _timeout (this w') = Some (nextTimer w).
Proof.
  intros H w'. subst w'. unfold exec, connectedCallback in *.
  past_part H schedule_state ltac:(apply keeps_connect_duration; by_computation).
  past_part H schedule_state ltac:(apply keeps_connect_when; by_computation).
  past_part H schedule_state ltac:(keeps_tac).
  past_part H schedule_state ltac:(by_computation).
  past_part H schedule_state ltac:(apply keeps_connect_reset; by_computation).
  past_part H schedule_state ltac:(apply keeps_connect_listeners; by_computation).
  unfold schedule_state in *.
  assert (Ht : timers w5 = timers w /\ nextTimer w5 = nextTimer w).
  { apply pair_equal_spec. congruence. }
  destruct Ht as [Ht Hn].
  unfold bind, setTimeout, modify_this. cbn. rewrite Ht, Hn.
  repeat split.
Qed.

Lemma connected_schedules_first_tick_witness :
  timers (exec (connectedCallback [("duration", "300")])
            (hostAt 1000000000000 1 constructed))
  = [(0%nat, 1000)].
Proof.
  destruct (connected_schedules_first_tick [("duration", "300")]
              (hostAt 1000000000000 1 constructed) eq_refl) as [H _].
  exact H.
Defined.

(** The [keepalive] attribute goes through [sanitiseDuation]: when
    connecting completes, an attribute that reads as the safe integer [n]
    leaves the threshold at [n * 1000] for [n] below 180000 and at [n]
    otherwise, that result being a safe integer too; so any such [n >= 1] is
    above the floor of 30 below which keepalive is off. *)
Theorem connected_keepalive_attribute (attrs : list (string * string))
  (w : World) (s : string) (n : Z) :
  fst (connectedCallback attrs w) = Return tt ->
  getAttribute attrs "keepalive" = JString s ->
  parseInt s = Num n ->
  Z.abs n <= MAX_SAFE_INTEGER ->
  Z.abs (if n <? 180000 then n * 1000 else n) <= MAX_SAFE_INTEGER ->
  let w' := exec (connectedCallback attrs) w in
  keepalive (this w') = (if n <? 180000 then n * 1000 else n) /\
  (1 <= n -> keepalive (this w') > minKeepalive).
Proof.
  intros H Ha Hp _ _ w'.
  assert (Hk : keepalive (this w') = (if n <? 180000 then n * 1000 else n)).
  { subst w'. unfold exec, connectedCallback in *.
    past_part H keepalive_state
      ltac:(apply keeps_connect_duration; by_computation).
    past_part H keepalive_state
      ltac:(apply keeps_connect_when; by_computation).
    rewrite (getAttribute_hasAttribute _ _ _ Ha), Ha in H |- *.
    assert (Hs : sanitiseDuation (JString s)
                 = Return (if n <? 180000 then n * 1000 else n)).
    { unfold sanitiseDuation. rewrite Hp, Z.rem_1_r. reflexivity. }
    rewrite Hs in H |- *.
    unfold bind at 1, liftO at 1 in H.
    unfold bind at 1. unfold liftO at 1.
    unfold bind at 1 in H. unfold modify_this at 1 in H.
    unfold bind at 1. unfold modify_this at 1.
    set (w2 := with_this (set_keepalive (if n <? 180000 then n * 1000 else n))
                 w1) in *.
    assert (G2 : keepalive_state w2 = (if n <? 180000 then n * 1000 else n))
      by reflexivity.
    past_part H keepalive_state ltac:(by_computation).
    past_part H keepalive_state
      ltac:(apply keeps_connect_reset; by_computation).
    past_part H keepalive_state
      ltac:(apply keeps_connect_listeners; by_computation).
    unfold bind, setTimeout, modify_this. cbn [fst snd this with_this].
    unfold keepalive_state in *. cbn [keepalive set_timeout _keepalive].
    congruence. }
  split; [exact Hk|].
  intros Hn. rewrite Hk. unfold minKeepalive.
  destruct (n <? 180000) eqn:E; [|apply Z.ltb_ge in E]; lia.
Qed.

Lemma connected_keepalive_attribute_witness :
  keepalive
    (this (exec (connectedCallback [("duration", "300"); ("keepalive", "20")])
             (hostAt 1000000000000 1 constructed)))
  = 20000.
Proof.
  destruct (connected_keepalive_attribute
              [("duration", "300"); ("keepalive", "20")]
              (hostAt 1000000000000 1 constructed) "20" 20
              eq_refl eq_refl eq_refl) as [H _];
    [vm_compute; discriminate|vm_compute; discriminate|].
  exact H.
Defined.

(** Connecting gives up before anything is registered or scheduled when
    the [duration] attribute does not read as a number, leaving the world as
    it was, and, past a [duration] attribute that is absent or reads as a
    number, when the [when] attribute is blank, leaving the end date, the
    timers and the listeners as they were: the element then never ticks. *)
Theorem connected_aborts (attrs : list (string * string)) (w : World)
  (s : string) :
  (getAttribute attrs "duration" = JString s -> parseInt s = NaN ->
   connectedCallback attrs w = (Throw duration_error, w)) /\
  (hasAttribute attrs "duration" = false \/
   (exists d, sanitiseDuation (getAttribute attrs "duration") = Return d) ->
   getAttribute attrs "when" = JString s -> String.eqb (trim s) "" = true ->
   let w' := exec (connectedCallback attrs) w in
   (exists msg, fst (connectedCallback attrs w) = Throw msg) /\
   _end (this w') = _end (this w) /\ timers w' = timers w /\
   nextTimer w' = nextTimer w /\ windowListeners w' = windowListeners w).
Proof.
  split.
  - intros Ha Hp. unfold connectedCallback.
    rewrite (getAttribute_hasAttribute _ _ _ Ha), Ha.
    unfold sanitiseDuation. rewrite Hp. reflexivity.
  - intros Hd Ha Hb w'. subst w'. unfold exec, connectedCallback.
    rewrite (getAttribute_hasAttribute _ _ _ Ha), Ha.
    unfold setEnd. rewrite Hb.
    destruct (hasAttribute attrs "duration") eqn:E.
    + destruct Hd as [Hd|[d Hd]]; [discriminate Hd|]. rewrite Hd.
      cbn. split; [eexists; reflexivity|]. repeat split.
    + cbn. split; [eexists; reflexivity|]. repeat split.
Qed.

Lemma connected_aborts_witness :
  connectedCallback [("duration", "five minutes")] (hostAt 0 1 constructed)
  = (Throw duration_error, hostAt 0 1 constructed).
Proof.
  destruct (connected_aborts [("duration", "five minutes")]
              (hostAt 0 1 constructed) "five minutes") as [H _].
  apply H; reflexivity.
Defined.

Lemma disconnected_no_pending_timer_witness :
  timers
    (exec disconnectedCallback
       (exec (connectedCallback [("duration", "300")])
          (hostAt 1000000000000 1 constructed)))
  = [].
Proof.
  apply disconnected_no_pending_timer.
  right. exists 0%nat, 1000. split; reflexivity.
Defined.



Lemma now_text_iff_witness :
  dynamicDuration (getDurationData 1000 (Num 1999) "expires" "expired" "in" "ago")
  = "now".
Proof.
  destruct (now_text_iff 1000 1999 "expires" "expired" "in" "ago") as [H _].
  apply H. lia.
Defined.
